(** * simul: the upload-and-preview front end

    The repository holds four generations of the React component [App]
    and the drop-zone widget [AudioUploader]:

    - [TsApp]    the first TypeScript form (one blocking POST);
    - [BlobApp]  the JavaScript form that downloads the mix as a blob;
    - [PollApp]  the job-polling form of [frontend/src/App.jsx], which
                 draws two [AudioUploader]s;
    - [MixApp]   the prepare / adjust-offset / finalize workflow.

    Every component is embedded the same way.  The [useState] cells of a
    component are one record; an event handler is a function from the
    state of the render it was created in to the next state and the list
    of effects it starts; the code after an [await] is a second function,
    taking what the promise settled to.  A [World] adds the effects that
    have not settled yet, so that the order in which the browser delivers
    replies is an explicit list of events.

    Conventions.  JavaScript numbers are exact rationals.  A
    [FileReader] started on a blob held in memory always loads.
    [console] output and [e.preventDefault()] are left out.  A
    component that was torn down receives no further event. *)

From Stdlib Require Import String Ascii List Bool Arith NArith ZArith QArith Lia.
From Stdlib Require Import DecimalString DecimalPos DecimalN.
Import ListNotations.

Local Close Scope Q_scope.
Local Open Scope string_scope.
Local Open Scope list_scope.

Notation "a +++ b" := (String.append a b) (at level 60, right associativity).

(** ** JavaScript values read from a JSON body *)

Module Js.

(** The handlers read string-valued fields of a parsed JSON object; a
    field that is absent reads as [undefined]. *)
Inductive value : Type :=
| undefined
| null
| str (s : string).

(** [!!v] *)
Definition truthy (v : value) : bool :=
  match v with
  | str s => negb (s =? "")
  | _ => false
  end.

(** [`${v}`] *)
Definition to_string (v : value) : string :=
  match v with
  | undefined => "undefined"
  | null => "null"
  | str s => s
  end.

(** [`${v || d}`] with [d] a string *)
Definition or_else (v : value) (d : string) : string :=
  if truthy v then to_string v else d.

(** [v === 'lit'] *)
Definition strict_eq (v : value) (lit : string) : bool :=
  match v with
  | str s => s =? lit
  | _ => false
  end.

(** [!!o] for a cell that holds [null] or an object *)
Definition has {A : Type} (o : option A) : bool :=
  match o with
  | Some _ => true
  | None => false
  end.

(** [!!s] for a cell that holds [null] or a string *)
Definition truthy_opt (o : option string) : bool :=
  match o with
  | Some s => negb (s =? "")
  | None => false
  end.

End Js.

(** ** Files, form data, axios outcomes *)

Record File : Type := mkFile {
  file_name : string;
  file_type : string;
  file_size : N
}.

Inductive FormValue : Type :=
| FormFile (f : File)
| FormText (s : string)
| FormId (v : Js.value)
| FormNumber (q : Q).

Definition FormData : Type := list (string * FormValue).

(** [FormData.prototype.get]: the first value appended under [name]. *)
Fixpoint form_get (name : string) (form : FormData) : option FormValue :=
  match form with
  | [] => None
  | (k, v) :: rest => if k =? name then Some v else form_get name rest
  end.

(** What [JSON.parse] makes of the text of a blob: a syntax error, the
    value [null] (reading a property of it throws), or a value whose
    [error] property can be read.  A blob is represented by this outcome. *)
Inductive Parsed : Type :=
| ParseError
| ParsedNull
| ParsedValue (error_field : Js.value).

(** [err.response.data] of a rejected axios call. *)
Inductive ResponseData : Type :=
| DataNone                          (* null, undefined *)
| DataText (s : string)             (* a body that is not JSON *)
| DataObject (error_field : Js.value)
| DataBlob (content : Parsed).      (* responseType: 'blob' *)

Definition data_truthy (d : ResponseData) : bool :=
  match d with
  | DataNone => false
  | DataText s => negb (s =? "")
  | DataObject _ => true
  | DataBlob _ => true
  end.

(** A rejected call: [response] is absent for a transport failure and
    present when the server answered with a failure status. *)
Record AxiosError : Type := mkAxiosError {
  message : string;
  response : option ResponseData
}.

Inductive Reply (A : Type) : Type :=
| Fulfilled (data : A)
| Rejected (err : AxiosError).
Arguments Fulfilled {A} data.
Arguments Rejected {A} err.

Definition nonempty (s : string) : Prop := s <> "".

Create HintDb simul.

(** ** Object URLs

    [URL.createObjectURL] hands out a fresh [blob:] URL and keeps the
    blob alive until [URL.revokeObjectURL] is called with it.  URLs are
    numbered in the order the browser creates them. *)

Definition ObjectURL : Type := nat.

Record Browser : Type := mkBrowser {
  next_url : ObjectURL;
  live : list ObjectURL
}.

Definition fresh_browser : Browser := mkBrowser 0 [].

Definition createObjectURL (b : Browser) : ObjectURL * Browser :=
  (next_url b, mkBrowser (S (next_url b)) (next_url b :: live b)).

Definition revokeObjectURL (u : ObjectURL) (b : Browser) : Browser :=
  mkBrowser (next_url b) (remove Nat.eq_dec u (live b)).

(** [String.prototype.includes] *)
Definition includes (needle hay : string) : bool :=
  match index 0 needle hay with
  | Some _ => true
  | None => false
  end.

(** [Date.now()], printed inside a template string. *)
Definition show_time (now : N) : string := NilZero.string_of_uint (N.to_uint now).

(** 1 for [true], 0 for [false]: flags are compared with counts. *)
Definition b2n (b : bool) : nat := if b then 1 else 0.

(** A settled effect leaves the list of pending ones. *)
Fixpoint remove_nth {A : Type} (i : nat) (l : list A) : list A :=
  match i, l with
  | _, [] => []
  | O, _ :: l' => l'
  | S i', x :: l' => x :: remove_nth i' l'
  end.

(** Setter calls read in source order. *)
Notation "s |> f" := (f s) (at level 48, left associativity, only parsing).

(** ** The job-polling form: [frontend/src/App.jsx] *)

Module PollApp.

Definition API_URL : string := "http://localhost:8000".

Record State : Type := mkState {
  vocalFile : option File;
  beatFile : option File;
  processing : bool;
  jobId : Js.value;
  status : string;           (* 'idle' 'processing' 'completed' 'error' *)
  downloadUrl : option string;
  error : string
}.

Definition initial : State :=
  mkState None None false Js.null "idle" None "".

Definition setVocalFile x s :=
  mkState x (beatFile s) (processing s) (jobId s) (status s) (downloadUrl s) (error s).
Definition setBeatFile x s :=
  mkState (vocalFile s) x (processing s) (jobId s) (status s) (downloadUrl s) (error s).
Definition setProcessing x s :=
  mkState (vocalFile s) (beatFile s) x (jobId s) (status s) (downloadUrl s) (error s).
Definition setJobId x s :=
  mkState (vocalFile s) (beatFile s) (processing s) x (status s) (downloadUrl s) (error s).
Definition setStatus x s :=
  mkState (vocalFile s) (beatFile s) (processing s) (jobId s) x (downloadUrl s) (error s).
Definition setDownloadUrl x s :=
  mkState (vocalFile s) (beatFile s) (processing s) (jobId s) (status s) x (error s).
Definition setError x s :=
  mkState (vocalFile s) (beatFile s) (processing s) (jobId s) (status s) (downloadUrl s) x.

(** An effect names the continuation that runs when it settles. *)
Inductive Effect : Type :=
| PostProcess (url : string) (form : FormData)    (* then: handleSubmit *)
| GetStatus (url : string) (id : Js.value)        (* then: pollStatus id *)
| SetTimeout (delay : N) (id : Js.value).         (* () => pollStatus(id) *)

Definition is_request (e : Effect) : bool :=
  match e with
  | PostProcess _ _ | GetStatus _ _ => true
  | SetTimeout _ _ => false
  end.

Record ProcessBody : Type := { job_id : Js.value }.
Record StatusBody : Type := { reported : Js.value }.

Definition handleVocalUpload (file : option File) (s : State) : State :=
  setVocalFile file s.

Definition handleBeatUpload (file : option File) (s : State) : State :=
  setBeatFile file s.

(** [pollStatus], up to its [await]. *)
Definition pollStatus (id : Js.value) : list Effect :=
  [GetStatus (API_URL +++ "/status/" +++ Js.to_string id) id].

(** What a read of a property of [null] throws: no [response]. *)
Definition thrown_on_null : AxiosError :=
  mkAxiosError "Cannot read properties of null" None.

Definition pollStatus_catch (err : AxiosError) (s : State)
    : State * list Effect :=
  (s |> setStatus "error" |> setProcessing false
     |> setError "Error checking processing status", []).

(** [pollStatus] after the [await]; a body that is [null] makes
    [response.data.status] throw inside the [try]. *)
Definition pollStatus_then (id : Js.value) (data : option StatusBody)
    (s : State) : State * list Effect :=
  match data with
  | None => pollStatus_catch thrown_on_null s
  | Some body =>
      if Js.strict_eq (reported body) "completed" then
        (s |> setStatus "completed" |> setProcessing false
           |> setDownloadUrl (Some (API_URL +++ "/download/" +++ Js.to_string id)),
         [])
      else if Js.strict_eq (reported body) "processing" then
        (s, [SetTimeout 2000 id])
      else
        (s |> setStatus "error" |> setProcessing false
           |> setError "Processing failed", [])
  end.

(** [handleSubmit], up to its [await]. *)
Definition handleSubmit (s : State) : State * list Effect :=
  match vocalFile s, beatFile s with
  | Some v, Some b =>
      (s |> setProcessing true |> setStatus "processing" |> setError "",
       [PostProcess (API_URL +++ "/process")
          [("vocal_file", FormFile v); ("beat_file", FormFile b)]])
  | _, _ => (s |> setError "Please upload both vocal and beat files", [])
  end.

Definition handleSubmit_catch (err : AxiosError) (s : State)
    : State * list Effect :=
  (s |> setError "Error processing files. Please try again."
     |> setStatus "error" |> setProcessing false, []).

Definition handleSubmit_then (data : option ProcessBody) (s : State)
    : State * list Effect :=
  match data with
  | None => handleSubmit_catch thrown_on_null s
  | Some body => (s |> setJobId (job_id body), pollStatus (job_id body))
  end.

(** The [disabled] attribute of the submit button, negated. *)
Definition submit_enabled (s : State) : bool :=
  negb (processing s || negb (Js.has (vocalFile s)) || negb (Js.has (beatFile s))).

(** [getStatusDisplay]. *)
Inductive Display : Type :=
| ShowNothing
| ShowSpinner
| ShowDownload (href : option string)
| ShowError (text : string).

Definition getStatusDisplay (s : State) : Display :=
  if status s =? "processing" then ShowSpinner
  else if status s =? "completed" then ShowDownload (downloadUrl s)
  else if status s =? "error" then
    ShowError (if error s =? "" then "An error occurred" else error s)
  else ShowNothing.

(** *** The event loop *)

Record World : Type := mkWorld {
  view : State;
  tasks : list Effect;     (* started, not settled *)
  trace : list Effect      (* every effect started, oldest first *)
}.

Inductive Event : Type :=
| VocalUpload (file : option File)
| BeatUpload (file : option File)
| Submit
| ProcessReply (i : nat) (r : Reply (option ProcessBody))
| StatusReply (i : nat) (r : Reply (option StatusBody))
| TimerFires (i : nat).

Definition settle (i : nat) (r : State * list Effect) (w : World) : World :=
  mkWorld (fst r) (remove_nth i (tasks w) ++ snd r) (trace w ++ snd r).

Definition start (r : State * list Effect) (w : World) : World :=
  mkWorld (fst r) (tasks w ++ snd r) (trace w ++ snd r).

Definition step (e : Event) (w : World) : option World :=
  let s := view w in
  match e with
  | VocalUpload f =>
      if processing s then None
      else Some (start (handleVocalUpload f s, []) w)
  | BeatUpload f =>
      if processing s then None
      else Some (start (handleBeatUpload f s, []) w)
  | Submit =>
      if submit_enabled s then Some (start (handleSubmit s) w) else None
  | ProcessReply i r =>
      match nth_error (tasks w) i with
      | Some (PostProcess _ _) =>
          Some (settle i match r with
                         | Fulfilled d => handleSubmit_then d s
                         | Rejected err => handleSubmit_catch err s
                         end w)
      | _ => None
      end
  | StatusReply i r =>
      match nth_error (tasks w) i with
      | Some (GetStatus _ id) =>
          Some (settle i match r with
                         | Fulfilled d => pollStatus_then id d s
                         | Rejected err => pollStatus_catch err s
                         end w)
      | _ => None
      end
  | TimerFires i =>
      match nth_error (tasks w) i with
      | Some (SetTimeout _ id) => Some (settle i (s, pollStatus id) w)
      | _ => None
      end
  end.

Fixpoint run (es : list Event) (w : World) : option World :=
  match es with
  | [] => Some w
  | e :: es' =>
      match step e w with
      | Some w' => run es' w'
      | None => None
      end
  end.

(** [n] rounds of "the server says processing, the timer fires", then
    the reply [last]. *)
Fixpoint polling (n : nat) (last : Event) : list Event :=
  match n with
  | O => [last]
  | S n' =>
      StatusReply 0 (Fulfilled (Some {| reported := Js.str "processing" |}))
      :: TimerFires 0 :: polling n' last
  end.

Fixpoint repolls (n : nat) (id : Js.value) : list Effect :=
  match n with
  | O => []
  | S n' => SetTimeout 2000 id :: pollStatus id ++ repolls n' id
  end.

(** *** Scenarios used in the statements *)

Definition says (st : string) : Event :=
  StatusReply 0 (Fulfilled (Some {| reported := Js.str st |})).

Definition done (j : Js.value) (s : State) : State :=
  s |> setStatus "completed" |> setProcessing false
    |> setDownloadUrl (Some (API_URL +++ "/download/" +++ Js.to_string j)).

Definition message_cell (s : State) : option string := Some (error s).

(** *** Reachable worlds and what holds in them *)

Definition boot : World := mkWorld initial [] [].

Definition reachable (w : World) : Prop :=
  exists es, run es boot = Some w.

Definition status_url (j : Js.value) : string :=
  API_URL +++ "/status/" +++ Js.to_string j.

Definition download_url (j : Js.value) : string :=
  API_URL +++ "/download/" +++ Js.to_string j.

(** The one effect that is pending while [processing] is up: the POST
    of the two files on view, or a GET or a timer for the job on view. *)
Definition in_chain (s : State) (e : Effect) : Prop :=
  (exists v b, vocalFile s = Some v /\ beatFile s = Some b
               /\ e = PostProcess (API_URL +++ "/process")
                        [("vocal_file", FormFile v); ("beat_file", FormFile b)])
  \/ e = GetStatus (status_url (jobId s)) (jobId s)
  \/ e = SetTimeout 2000 (jobId s).

(** The messages the two [catch] blocks and the failure branch store. *)
Definition failure_messages : list string :=
  [ "Error processing files. Please try again.";
    "Processing failed";
    "Error checking processing status" ].

(** The four phases of the form. *)
Definition phase (w : World) : Prop :=
  let s := view w in
  (status s = "idle" /\ processing s = false /\ error s = "" /\ tasks w = [])
  \/ (status s = "processing" /\ processing s = true /\ error s = ""
      /\ exists e, tasks w = [e] /\ in_chain s e)
  \/ (status s = "completed" /\ processing s = false /\ error s = ""
      /\ tasks w = [] /\ downloadUrl s = Some (download_url (jobId s)))
  \/ (status s = "error" /\ processing s = false
      /\ In (error s) failure_messages /\ tasks w = []).

(** A reply to a status request that does not say 'processing'. *)
Definition ends_polling (r : Reply (option StatusBody)) : bool :=
  match r with
  | Fulfilled (Some body) => negb (Js.strict_eq (reported body) "processing")
  | Fulfilled None => true
  | Rejected _ => true
  end.

(** One submission: two files, the job identifier, one 'processing'
    reply. *)
Definition one_poll : list Event :=
  [ VocalUpload (Some (mkFile "vocal.wav" "audio/wav" 1));
    BeatUpload (Some (mkFile "beat.wav" "audio/wav" 1));
    Submit;
    ProcessReply 0 (Fulfilled (Some {| job_id := Js.str "j1" |}));
    says "processing" ].

Definition waiting : World :=
  mkWorld
    (mkState (Some (mkFile "vocal.wav" "audio/wav" 1))
             (Some (mkFile "beat.wav" "audio/wav" 1))
             true (Js.str "j1") "processing" None "")
    [SetTimeout 2000 (Js.str "j1")]
    [ PostProcess "http://localhost:8000/process"
        [("vocal_file", FormFile (mkFile "vocal.wav" "audio/wav" 1));
         ("beat_file", FormFile (mkFile "beat.wav" "audio/wav" 1))];
      GetStatus "http://localhost:8000/status/j1" (Js.str "j1");
      SetTimeout 2000 (Js.str "j1") ].

Definition posted : World :=
  mkWorld
    (mkState (Some (mkFile "vocal.wav" "audio/wav" 1))
             (Some (mkFile "beat.wav" "audio/wav" 1))
             true Js.null "processing" None "")
    [ PostProcess "http://localhost:8000/process"
        [("vocal_file", FormFile (mkFile "vocal.wav" "audio/wav" 1));
         ("beat_file", FormFile (mkFile "beat.wav" "audio/wav" 1))] ]
    [ PostProcess "http://localhost:8000/process"
        [("vocal_file", FormFile (mkFile "vocal.wav" "audio/wav" 1));
         ("beat_file", FormFile (mkFile "beat.wav" "audio/wav" 1))] ].

Definition repolling : World :=
  mkWorld (view waiting) (pollStatus (Js.str "j1"))
          (trace waiting ++ pollStatus (Js.str "j1")).

Definition network_down : AxiosError := mkAxiosError "Network Error" None.

End PollApp.

(** ** The drop-zone widget: [frontend/src/Components/AudioUploader.jsx] *)

Module AudioUploader.

Record Props : Type := {
  file : option File;
  disabled : bool
}.

(** [onDrop]: what is passed to [onFileSelected], if it is called. *)
Definition onDrop (acceptedFiles : list File) : option (option File) :=
  match acceptedFiles with
  | f :: _ => Some (Some f)
  | [] => None
  end.

Definition removeFile : option File := None.

(** One evaluation of the component body.  The [<source>] element of
    the preview takes its [src] from a call to [URL.createObjectURL]
    made while rendering. *)
Definition render (p : Props) (b : Browser) : Browser :=
  match file p with
  | Some f =>
      if prefix "audio/" (file_type f) then snd (createObjectURL b) else b
  | None => b
  end.

(** The component registers no effect, so nothing runs on teardown. *)
Definition unmount (b : Browser) : Browser := b.

(** *** A scenario *)

Definition clip : File := mkFile "vocal.mp3" "audio/mpeg" 4096.

(** The component body is evaluated [n] times with the same props. *)
Fixpoint renders (n : nat) (p : Props) (b : Browser) : Browser :=
  match n with
  | O => b
  | S n' => renders n' p (render p b)
  end.

(** Whether the preview player is part of the output. *)
Definition previews (p : Props) : bool :=
  match file p with
  | Some f => prefix "audio/" (file_type f)
  | None => false
  end.

End AudioUploader.

(** ** The first form (TypeScript) *)

Module TsApp.

Record State : Type := mkState {
  vocalAudio : option File;
  beatAudio : option File;
  isProcessing : bool;
  processedAudio : option ObjectURL;
  error : option string
}.

Definition initial : State := mkState None None false None None.

Definition setVocalAudio x s :=
  mkState x (beatAudio s) (isProcessing s) (processedAudio s) (error s).
Definition setBeatAudio x s :=
  mkState (vocalAudio s) x (isProcessing s) (processedAudio s) (error s).
Definition setIsProcessing x s :=
  mkState (vocalAudio s) (beatAudio s) x (processedAudio s) (error s).
Definition setProcessedAudio x s :=
  mkState (vocalAudio s) (beatAudio s) (isProcessing s) x (error s).
Definition setError x s :=
  mkState (vocalAudio s) (beatAudio s) (isProcessing s) (processedAudio s) x.

Inductive Effect : Type :=
| PostProcessAudio (url : string) (form : FormData).

(** [event.target.files && event.target.files[0]] *)
Definition handleVocalAudioChange (files0 : option File) (s : State) : State :=
  match files0 with
  | Some f => setVocalAudio (Some f) s
  | None => s
  end.

Definition handleBeatAudioChange (files0 : option File) (s : State) : State :=
  match files0 with
  | Some f => setBeatAudio (Some f) s
  | None => s
  end.

Definition handleSubmit (s : State) : State * list Effect :=
  match vocalAudio s, beatAudio s with
  | Some v, Some b =>
      (s |> setIsProcessing true |> setError None,
       [PostProcessAudio "/api/process-audio"
          [("vocal_file", FormFile v); ("beat_file", FormFile b)]])
  | _, _ => (s, [])
  end.

Definition handleSubmit_then (b : Browser) (s : State)
    : Browser * (State * list Effect) :=
  let (url, b') := createObjectURL b in
  (b', (s |> setProcessedAudio (Some url) |> setIsProcessing false, [])).

Definition handleSubmit_catch (err : AxiosError) (s : State)
    : State * list Effect :=
  (s |> setError (Some "An error occurred while processing the audio files.")
     |> setIsProcessing false, []).

(** [disabled={!vocalAudio || !beatAudio}], negated. *)
Definition submit_enabled (s : State) : bool :=
  negb (negb (Js.has (vocalAudio s)) || negb (Js.has (beatAudio s))).

(** *** A scenario *)

Definition vocal : File := mkFile "vocal.wav" "audio/wav" 1.
Definition beat : File := mkFile "beat.wav" "audio/wav" 1.

(** Both files are chosen and the button has been clicked once. *)
Definition busy : State :=
  fst (handleSubmit (initial |> handleVocalAudioChange (Some vocal)
                             |> handleBeatAudioChange (Some beat))).

(** One round: the button is clicked; if that sent the request, the
    fulfilled reply arrives. *)
Definition round (bs : Browser * State) : Browser * State :=
  let (b, s) := bs in
  match snd (handleSubmit s) with
  | [] => (b, s)
  | _ :: _ =>
      let (b', k) := handleSubmit_then b (fst (handleSubmit s)) in
      (b', fst k)
  end.

Fixpoint rounds (n : nat) (bs : Browser * State) : Browser * State :=
  match n with
  | O => bs
  | S n' => rounds n' (round bs)
  end.

(** Both files are chosen. *)
Definition ready (s : State) : bool :=
  Js.has (vocalAudio s) && Js.has (beatAudio s).

Definition both : State :=
  initial |> setVocalAudio (Some vocal)
                |> setBeatAudio (Some beat).

End TsApp.

(** ** The blob-download form (second component of [App.jsx]) *)

Module BlobApp.

Record State : Type := mkState {
  vocalAudio : option File;
  beatAudio : option File;
  isProcessing : bool;
  processedAudio : option ObjectURL;
  error : option string
}.

Definition initial : State := mkState None None false None None.

Definition setVocalAudio x s :=
  mkState x (beatAudio s) (isProcessing s) (processedAudio s) (error s).
Definition setBeatAudio x s :=
  mkState (vocalAudio s) x (isProcessing s) (processedAudio s) (error s).
Definition setIsProcessing x s :=
  mkState (vocalAudio s) (beatAudio s) x (processedAudio s) (error s).
Definition setProcessedAudio x s :=
  mkState (vocalAudio s) (beatAudio s) (isProcessing s) x (error s).
Definition setError x s :=
  mkState (vocalAudio s) (beatAudio s) (isProcessing s) (processedAudio s) x.

Inductive Effect : Type :=
| PostProcessAudio (url : string) (form : FormData)
| ReadReply (content : Parsed)                   (* onload of the 2xx JSON branch *)
| ReadFailure (content : Parsed) (msg : string)  (* onload of the catch branch *)
| AudioLoad.

Definition is_request (e : Effect) : bool :=
  match e with
  | PostProcessAudio _ _ => true
  | _ => false
  end.

(** A fulfilled reply: the [content-type] header and the blob. *)
Record ReplyBlob : Type := {
  content_type : string;
  body : Parsed
}.

Definition handleSubmit (s : State) : State * list Effect :=
  match vocalAudio s, beatAudio s with
  | Some v, Some b =>
      (s |> setIsProcessing true |> setError None |> setProcessedAudio None,
       [PostProcessAudio "/api/process-audio"
          [("vocal_file", FormFile v); ("beat_file", FormFile b)]])
  | _, _ => (s, [])
  end.

(** [audioPlayerRef.current] is set while the [<audio>] element is
    rendered, that is while [processedAudio && !isProcessing]. *)
Definition audio_mounted (s : State) : bool :=
  Js.has (processedAudio s) && negb (isProcessing s).

Definition handleSubmit_then (r : ReplyBlob) (b : Browser) (s : State)
    : Browser * (State * list Effect) :=
  if includes "application/json" (content_type r) then
    (b, (s |> setIsProcessing false, [ReadReply (body r)]))
  else
    let (url, b') := createObjectURL b in
    (b', (s |> setProcessedAudio (Some url) |> setIsProcessing false,
          if audio_mounted s then [AudioLoad] else [])).

(** [reader.onload] of the 2xx branch; it has no [try], so a text that
    does not parse to an object leaves the state as it is. *)
Definition onload_reply (content : Parsed) (s : State) : State :=
  match content with
  | ParsedValue e => s |> setError (Some ("Server error: " +++ Js.to_string e))
  | ParseError | ParsedNull => s
  end.

(** [reader.onload] of the catch branch. *)
Definition onload_failure (content : Parsed) (msg : string) (s : State) : State :=
  match content with
  | ParsedValue e =>
      s |> setError (Some ("Server error: " +++ Js.or_else e "Unknown error"))
  | ParseError | ParsedNull =>
      s |> setError (Some ("Error processing audio: " +++ msg))
  end.

Definition handleSubmit_catch (err : AxiosError) (s : State)
    : State * list Effect :=
  let (s1, effs) :=
    match response err with
    | Some d =>
        if data_truthy d then
          match d with
          | DataBlob c => (s, [ReadFailure c (message err)])
          | DataObject e =>
              (s |> setError (Some ("Error: " +++ Js.or_else e (message err))), [])
          | DataText _ | DataNone =>
              (s |> setError (Some ("Error: " +++ message err)), [])
          end
        else (s |> setError (Some ("Error processing audio: " +++ message err)), [])
    | None => (s |> setError (Some ("Error processing audio: " +++ message err)), [])
    end in
  (s1 |> setIsProcessing false, effs).

Definition submit_enabled (s : State) : bool :=
  negb (negb (Js.has (vocalAudio s)) || negb (Js.has (beatAudio s))
        || isProcessing s).

(** The component registers no effect, so nothing runs on teardown. *)
Definition unmount (b : Browser) : Browser := b.

(** The state once the readers a handler started have loaded. *)
Definition after_readers (r : State * list Effect) : State :=
  fold_left
    (fun s e =>
       match e with
       | ReadReply c => onload_reply c s
       | ReadFailure c msg => onload_failure c msg s
       | _ => s
       end)
    (snd r) (fst r).

(** *** Submitting again

    One round: the button is clicked; if that sent the request, the
    reply [r] arrives and the reader it may have started loads. *)
Definition round (r : ReplyBlob) (bs : Browser * State) : Browser * State :=
  let (b, s) := bs in
  match snd (handleSubmit s) with
  | [] => (b, s)
  | _ :: _ =>
      let (b', k) := handleSubmit_then r b (fst (handleSubmit s)) in
      (b', after_readers k)
  end.

Fixpoint rounds (rs : list ReplyBlob) (bs : Browser * State) : Browser * State :=
  match rs with
  | [] => bs
  | r :: rs' => rounds rs' (round r bs)
  end.


(** Both files are chosen. *)
Definition ready (s : State) : bool :=
  Js.has (vocalAudio s) && Js.has (beatAudio s).


Definition both : State :=
  initial |> setVocalAudio (Some TsApp.vocal)
                  |> setBeatAudio (Some TsApp.beat).

End BlobApp.

(** ** The prepare / adjust / finalize workflow *)

Module MixApp.

Record State : Type := mkState {
  vocalAudio : option File;
  beatAudio : option File;
  vocalKey : string;
  beatKey : string;
  vocalBpm : string;
  beatBpm : string;
  isProcessing : bool;
  processedAudio : option ObjectURL;
  error : option string;
  processingId : Js.value;
  offsetBeats : Q;
  previewUrl : option string;
  isAdjusting : bool;
  isMerging : bool;
  isPreviewMode : bool
}.

Definition initial : State :=
  mkState None None "" "" "" "" false None None Js.null 0%Q None false false false.

Definition setVocalAudio x s :=
  mkState x (beatAudio s) (vocalKey s) (beatKey s) (vocalBpm s) (beatBpm s)
    (isProcessing s) (processedAudio s) (error s) (processingId s)
    (offsetBeats s) (previewUrl s) (isAdjusting s) (isMerging s) (isPreviewMode s).
Definition setBeatAudio x s :=
  mkState (vocalAudio s) x (vocalKey s) (beatKey s) (vocalBpm s) (beatBpm s)
    (isProcessing s) (processedAudio s) (error s) (processingId s)
    (offsetBeats s) (previewUrl s) (isAdjusting s) (isMerging s) (isPreviewMode s).
Definition setVocalKey x s :=
  mkState (vocalAudio s) (beatAudio s) x (beatKey s) (vocalBpm s) (beatBpm s)
    (isProcessing s) (processedAudio s) (error s) (processingId s)
    (offsetBeats s) (previewUrl s) (isAdjusting s) (isMerging s) (isPreviewMode s).
Definition setBeatKey x s :=
  mkState (vocalAudio s) (beatAudio s) (vocalKey s) x (vocalBpm s) (beatBpm s)
    (isProcessing s) (processedAudio s) (error s) (processingId s)
    (offsetBeats s) (previewUrl s) (isAdjusting s) (isMerging s) (isPreviewMode s).
Definition setVocalBpm x s :=
  mkState (vocalAudio s) (beatAudio s) (vocalKey s) (beatKey s) x (beatBpm s)
    (isProcessing s) (processedAudio s) (error s) (processingId s)
    (offsetBeats s) (previewUrl s) (isAdjusting s) (isMerging s) (isPreviewMode s).
Definition setBeatBpm x s :=
  mkState (vocalAudio s) (beatAudio s) (vocalKey s) (beatKey s) (vocalBpm s) x
    (isProcessing s) (processedAudio s) (error s) (processingId s)
    (offsetBeats s) (previewUrl s) (isAdjusting s) (isMerging s) (isPreviewMode s).
Definition setIsProcessing x s :=
  mkState (vocalAudio s) (beatAudio s) (vocalKey s) (beatKey s) (vocalBpm s) (beatBpm s)
    x (processedAudio s) (error s) (processingId s)
    (offsetBeats s) (previewUrl s) (isAdjusting s) (isMerging s) (isPreviewMode s).
Definition setProcessedAudio x s :=
  mkState (vocalAudio s) (beatAudio s) (vocalKey s) (beatKey s) (vocalBpm s) (beatBpm s)
    (isProcessing s) x (error s) (processingId s)
    (offsetBeats s) (previewUrl s) (isAdjusting s) (isMerging s) (isPreviewMode s).
Definition setError x s :=
  mkState (vocalAudio s) (beatAudio s) (vocalKey s) (beatKey s) (vocalBpm s) (beatBpm s)
    (isProcessing s) (processedAudio s) x (processingId s)
    (offsetBeats s) (previewUrl s) (isAdjusting s) (isMerging s) (isPreviewMode s).
Definition setProcessingId x s :=
  mkState (vocalAudio s) (beatAudio s) (vocalKey s) (beatKey s) (vocalBpm s) (beatBpm s)
    (isProcessing s) (processedAudio s) (error s) x
    (offsetBeats s) (previewUrl s) (isAdjusting s) (isMerging s) (isPreviewMode s).
Definition setOffsetBeats x s :=
  mkState (vocalAudio s) (beatAudio s) (vocalKey s) (beatKey s) (vocalBpm s) (beatBpm s)
    (isProcessing s) (processedAudio s) (error s) (processingId s)
    x (previewUrl s) (isAdjusting s) (isMerging s) (isPreviewMode s).
Definition setPreviewUrl x s :=
  mkState (vocalAudio s) (beatAudio s) (vocalKey s) (beatKey s) (vocalBpm s) (beatBpm s)
    (isProcessing s) (processedAudio s) (error s) (processingId s)
    (offsetBeats s) x (isAdjusting s) (isMerging s) (isPreviewMode s).
Definition setIsAdjusting x s :=
  mkState (vocalAudio s) (beatAudio s) (vocalKey s) (beatKey s) (vocalBpm s) (beatBpm s)
    (isProcessing s) (processedAudio s) (error s) (processingId s)
    (offsetBeats s) (previewUrl s) x (isMerging s) (isPreviewMode s).
Definition setIsMerging x s :=
  mkState (vocalAudio s) (beatAudio s) (vocalKey s) (beatKey s) (vocalBpm s) (beatBpm s)
    (isProcessing s) (processedAudio s) (error s) (processingId s)
    (offsetBeats s) (previewUrl s) (isAdjusting s) x (isPreviewMode s).
Definition setIsPreviewMode x s :=
  mkState (vocalAudio s) (beatAudio s) (vocalKey s) (beatKey s) (vocalBpm s) (beatBpm s)
    (isProcessing s) (processedAudio s) (error s) (processingId s)
    (offsetBeats s) (previewUrl s) (isAdjusting s) (isMerging s) x.

Inductive Effect : Type :=
| PostPrepare (url : string) (form : FormData)    (* then: handleSubmit *)
| PostAdjust (url : string) (form : FormData)     (* then: handleOffsetChange *)
| PostFinalize (url : string) (form : FormData)   (* then: handleFinalizeMix *)
| ReadAsText (content : Parsed) (msg : string)    (* onload of handleApiError *)
| AudioLoad.

Definition is_request (e : Effect) : bool :=
  match e with
  | PostPrepare _ _ | PostAdjust _ _ | PostFinalize _ _ => true
  | ReadAsText _ _ | AudioLoad => false
  end.

(** [audioPlayerRef.current.load()] is over when it returns. *)
Definition is_task (e : Effect) : bool :=
  match e with
  | AudioLoad => false
  | _ => true
  end.

Record PrepareBody : Type := {
  processing_id : Js.value;
  preview_url : Js.value;
  offset_beats : option Q
}.

(** The reply of [/api/adjust-offset]; only [preview_url] is read. *)
Record AdjustBody : Type := { adjusted_preview_url : Js.value }.

Definition handleVocalAudioChange (files0 : option File) (s : State) : State :=
  match files0 with
  | Some f => s |> setVocalAudio (Some f)
  | None => s
  end.

Definition handleBeatAudioChange (files0 : option File) (s : State) : State :=
  match files0 with
  | Some f => s |> setBeatAudio (Some f)
  | None => s
  end.

(** [if (value) formData.append(name, value)] *)
Definition append_if (name value : string) : FormData :=
  if value =? "" then [] else [(name, FormText value)].

(** [handleSubmit], up to its [await]. *)
Definition handleSubmit (s : State) : State * list Effect :=
  match vocalAudio s, beatAudio s with
  | Some v, Some b =>
      (s |> setIsProcessing true |> setError None |> setProcessedAudio None
         |> setIsPreviewMode false,
       [PostPrepare "/api/prepare-audio"
          ([("vocal_file", FormFile v); ("beat_file", FormFile b)]
           ++ append_if "vocal_key" (vocalKey s)
           ++ append_if "beat_key" (beatKey s)
           ++ append_if "vocal_bpm" (vocalBpm s)
           ++ append_if "beat_bpm" (beatBpm s))])
  | _, _ => (s, [])
  end.

(** [reader.onload] installed by [handleApiError]. *)
Definition handleApiError_onload (content : Parsed) (msg : string)
    (s : State) : State :=
  match content with
  | ParsedValue e =>
      s |> setError (Some ("Server error: " +++ Js.or_else e "Unknown error"))
  | ParseError | ParsedNull =>
      s |> setError (Some ("Error processing audio: " +++ msg))
  end.

Definition handleApiError (err : AxiosError) (s : State) : State * list Effect :=
  match response err with
  | Some d =>
      if data_truthy d then
        match d with
        | DataBlob c => (s, [ReadAsText c (message err)])
        | DataObject e =>
            (s |> setError (Some ("Error: " +++ Js.or_else e (message err))), [])
        | DataText _ | DataNone =>
            (s |> setError (Some ("Error: " +++ message err)), [])
        end
      else (s |> setError (Some ("Error processing audio: " +++ message err)), [])
  | None => (s |> setError (Some ("Error processing audio: " +++ message err)), [])
  end.

(** [response.data.offset_beats || 0] *)
Definition offset_or_zero (o : option Q) : Q :=
  match o with
  | Some q => if Qeq_bool q 0 then 0%Q else q
  | None => 0%Q
  end.

Definition handleSubmit_then (data : PrepareBody) (s : State)
    : State * list Effect :=
  (s |> setProcessingId (processing_id data)
     |> setPreviewUrl (Some ("/api" +++ Js.to_string (preview_url data)))
     |> setOffsetBeats (offset_or_zero (offset_beats data))
     |> setIsPreviewMode true
     |> setIsProcessing false, []).

Definition handleSubmit_catch (err : AxiosError) (s : State)
    : State * list Effect :=
  let (s1, effs) := handleApiError err s in
  (s1 |> setIsProcessing false, effs).

(** [handleOffsetChange], up to its [await]. *)
Definition handleOffsetChange (newOffset : Q) (s : State) : State * list Effect :=
  if negb (Js.truthy (processingId s)) then (s, [])
  else
    (s |> setIsAdjusting true |> setOffsetBeats newOffset,
     [PostAdjust "/api/adjust-offset"
        [("processing_id", FormId (processingId s));
         ("offset_beats", FormNumber newOffset)]]).

Definition handleOffsetChange_then (data : AdjustBody) (now : N) (s : State)
    : State * list Effect :=
  (s |> setPreviewUrl
          (Some ("/api" +++ Js.to_string (adjusted_preview_url data)
                 +++ "?t=" +++ show_time now))
     |> setIsAdjusting false, []).

Definition handleOffsetChange_catch (err : AxiosError) (s : State)
    : State * list Effect :=
  let (s1, effs) := handleApiError err s in
  (s1 |> setIsAdjusting false, effs).

(** [direction] is [-1] (earlier) or [1] (later); numbers are exact
    rationals, kept in lowest terms. *)
Definition handleQuarterBeatAdjustment (direction : Q) (s : State)
    : State * list Effect :=
  let newOffset := Qred (offsetBeats s + direction * (1 # 4)) in
  handleOffsetChange newOffset s.

Definition resetOffset (s : State) : State * list Effect :=
  handleOffsetChange 0%Q s.

(** [handleFinalizeMix], up to its [await]. *)
Definition handleFinalizeMix (s : State) : State * list Effect :=
  if negb (Js.truthy (processingId s)) then (s, [])
  else
    (s |> setIsMerging true,
     [PostFinalize "/api/finalize-mix"
        [("processing_id", FormId (processingId s))]]).

(** *** What is rendered *)

Definition form_shown (s : State) : bool :=
  negb (isPreviewMode s) && negb (Js.has (processedAudio s)).

Definition preview_shown (s : State) : bool :=
  isPreviewMode s && Js.truthy_opt (previewUrl s).

Definition final_shown (s : State) : bool :=
  Js.has (processedAudio s) && negb (isProcessing s) && negb (isPreviewMode s).

Definition submit_enabled (s : State) : bool :=
  form_shown s
  && negb (negb (Js.has (vocalAudio s)) || negb (Js.has (beatAudio s))
           || isProcessing s).

Definition nudge_enabled (s : State) : bool :=
  preview_shown s && negb (isAdjusting s).

Definition reset_enabled (s : State) : bool :=
  preview_shown s && negb (isAdjusting s || Qeq_bool (offsetBeats s) 0).

Definition finalize_enabled (s : State) : bool :=
  preview_shown s && negb (isMerging s).

(** Both [<audio>] elements carry [audioPlayerRef]. *)
Definition audio_mounted (s : State) : bool :=
  preview_shown s || final_shown s.

Definition handleFinalizeMix_then (b : Browser) (s : State)
    : Browser * (State * list Effect) :=
  let (url, b') := createObjectURL b in
  (b', (s |> setProcessedAudio (Some url) |> setIsPreviewMode false
          |> setIsMerging false,
        if audio_mounted s then [AudioLoad] else [])).

Definition handleFinalizeMix_catch (err : AxiosError) (s : State)
    : State * list Effect :=
  let (s1, effs) := handleApiError err s in
  (s1 |> setIsMerging false, effs).

(** The [onClick] of the New Mix button. *)
Definition newMix (s : State) : State :=
  s |> setIsPreviewMode false |> setProcessedAudio None
    |> setProcessingId Js.null |> setPreviewUrl None |> setOffsetBeats 0%Q.

(** *** The effect on [processedAudio]

    [useEffect(() => () => { if (processedAudio) revoke }, [processedAudio])]:
    the cleanup of a render runs when a later render has another value
    in the cell, and on teardown. *)

Definition cleanup (held : option ObjectURL) (b : Browser) : Browser :=
  match held with
  | Some u => revokeObjectURL u b
  | None => b
  end.

Definition same_url (x y : option ObjectURL) : bool :=
  match x, y with
  | Some u, Some v => Nat.eqb u v
  | None, None => true
  | _, _ => false
  end.

Definition commit (before after : State) (b : Browser) : Browser :=
  if same_url (processedAudio before) (processedAudio after) then b
  else cleanup (processedAudio before) b.

(** *** The event loop *)

Record World : Type := mkWorld {
  view : State;
  browser : Browser;
  tasks : list Effect;     (* started, not settled *)
  mounted : bool
}.

Definition boot : World := mkWorld initial fresh_browser [] true.

Inductive Event : Type :=
| VocalAudioChange (files0 : option File)
| BeatAudioChange (files0 : option File)
| VocalKeyChange (v : string)
| BeatKeyChange (v : string)
| VocalBpmChange (v : string)
| BeatBpmChange (v : string)
| ClickSubmit
| ClickEarlier
| ClickReset
| ClickLater
| ClickFinalize
| ClickNewMix
| PrepareReply (i : nat) (r : Reply PrepareBody)
| AdjustReply (i : nat) (r : Reply AdjustBody) (now : N)
| FinalizeReply (i : nat) (r : Reply unit)
| ReaderLoads (i : nat)
| Unmount.

Definition is_user_action (e : Event) : bool :=
  match e with
  | PrepareReply _ _ | AdjustReply _ _ _ | FinalizeReply _ _
  | ReaderLoads _ | Unmount => false
  | _ => true
  end.

(** A handler ran in the world [w], on top of the pending list [ts]. *)
Definition render (ts : list Effect) (b : Browser)
    (r : State * list Effect) (w : World) : World :=
  mkWorld (fst r) (commit (view w) (fst r) b)
          (ts ++ filter is_task (snd r)) true.

Definition act (r : State * list Effect) (w : World) : World :=
  render (tasks w) (browser w) r w.

Definition settle (i : nat) (r : State * list Effect) (w : World) : World :=
  render (remove_nth i (tasks w)) (browser w) r w.

Definition guard (c : bool) (w : World) : option World :=
  if c then Some w else None.

Definition step (e : Event) (w : World) : option World :=
  let s := view w in
  if negb (mounted w) then None else
  match e with
  | VocalAudioChange f =>
      guard (form_shown s) (act (handleVocalAudioChange f s, []) w)
  | BeatAudioChange f =>
      guard (form_shown s) (act (handleBeatAudioChange f s, []) w)
  | VocalKeyChange v => guard (form_shown s) (act (s |> setVocalKey v, []) w)
  | BeatKeyChange v => guard (form_shown s) (act (s |> setBeatKey v, []) w)
  | VocalBpmChange v => guard (form_shown s) (act (s |> setVocalBpm v, []) w)
  | BeatBpmChange v => guard (form_shown s) (act (s |> setBeatBpm v, []) w)
  | ClickSubmit => guard (submit_enabled s) (act (handleSubmit s) w)
  | ClickEarlier =>
      guard (nudge_enabled s) (act (handleQuarterBeatAdjustment (-1) s) w)
  | ClickReset => guard (reset_enabled s) (act (resetOffset s) w)
  | ClickLater =>
      guard (nudge_enabled s) (act (handleQuarterBeatAdjustment 1 s) w)
  | ClickFinalize => guard (finalize_enabled s) (act (handleFinalizeMix s) w)
  | ClickNewMix => guard (final_shown s) (act (newMix s, []) w)
  | PrepareReply i r =>
      match nth_error (tasks w) i with
      | Some (PostPrepare _ _) =>
          Some (settle i match r with
                         | Fulfilled d => handleSubmit_then d s
                         | Rejected err => handleSubmit_catch err s
                         end w)
      | _ => None
      end
  | AdjustReply i r now =>
      match nth_error (tasks w) i with
      | Some (PostAdjust _ _) =>
          Some (settle i match r with
                         | Fulfilled d => handleOffsetChange_then d now s
                         | Rejected err => handleOffsetChange_catch err s
                         end w)
      | _ => None
      end
  | FinalizeReply i r =>
      match nth_error (tasks w) i with
      | Some (PostFinalize _ _) =>
          Some match r with
               | Fulfilled _ =>
                   let (b', r') := handleFinalizeMix_then (browser w) s in
                   render (remove_nth i (tasks w)) b' r' w
               | Rejected err => settle i (handleFinalizeMix_catch err s) w
               end
      | _ => None
      end
  | ReaderLoads i =>
      match nth_error (tasks w) i with
      | Some (ReadAsText c msg) =>
          Some (settle i (handleApiError_onload c msg s, []) w)
      | _ => None
      end
  | Unmount =>
      Some (mkWorld s (cleanup (processedAudio s) (browser w)) (tasks w) false)
  end.

Fixpoint run (es : list Event) (w : World) : option World :=
  match es with
  | [] => Some w
  | e :: es' =>
      match step e w with
      | Some w' => run es' w'
      | None => None
      end
  end.

Definition reachable (w : World) : Prop :=
  exists es, run es boot = Some w.

(** Requests in flight, all and by kind. *)
Definition in_flight (w : World) : nat :=
  length (filter is_request (tasks w)).

Definition is_prepare (e : Effect) : bool :=
  match e with PostPrepare _ _ => true | _ => false end.
Definition is_adjust (e : Effect) : bool :=
  match e with PostAdjust _ _ => true | _ => false end.
Definition is_finalize (e : Effect) : bool :=
  match e with PostFinalize _ _ => true | _ => false end.

Definition count (p : Effect -> bool) (w : World) : nat :=
  length (filter p (tasks w)).

(** The state once the readers a handler started have loaded. *)
Definition after_readers (r : State * list Effect) : State :=
  fold_left
    (fun s e =>
       match e with
       | ReadAsText c msg => handleApiError_onload c msg s
       | _ => s
       end)
    (snd r) (fst r).

(** *** Requests, invariants, readings of the specification, scenarios *)

Definition adjust_request (id : Js.value) (q : Q) : Effect :=
  PostAdjust "/api/adjust-offset"
    [("processing_id", FormId id); ("offset_beats", FormNumber q)].

Definition finalize_request (id : Js.value) : Effect :=
  PostFinalize "/api/finalize-mix" [("processing_id", FormId id)].

(** Each flag counts the pending requests of its own kind. *)
Record flags_count (w : World) : Prop := {
  count_prepare : count is_prepare w = b2n (isProcessing (view w));
  count_adjust : count is_adjust w = b2n (isAdjusting (view w));
  count_finalize : count is_finalize w = b2n (isMerging (view w))
}.

Definition held (o : option ObjectURL) : list ObjectURL :=
  match o with
  | Some u => [u]
  | None => []
  end.

(** While mounted the only live URL is the one in [processedAudio];
    after teardown none is. *)
Record urls_ok (w : World) : Prop := {
  live_held :
    live (browser w)
    = if mounted w then held (processedAudio (view w)) else [];
  live_below :
    Forall (fun u => u < next_url (browser w)) (live (browser w))
}.

(** The specification's wording of the concurrency model: one request
    in flight at a time. *)
Definition one_request_at_a_time : Prop :=
  forall w, reachable w -> in_flight w <= 1.

(** The specification's wording of the identifier guard: a test
    against [null] ([undefined] counted with it). *)
Definition nullish (v : Js.value) : Prop := v = Js.null \/ v = Js.undefined.

Definition null_guard : Prop :=
  forall (s : State) (newOffset : Q),
    (nullish (processingId s) ->
       handleOffsetChange newOffset s = (s, []) /\ handleFinalizeMix s = (s, []))
    /\ (~ nullish (processingId s) ->
          snd (handleOffsetChange newOffset s) <> []
          /\ snd (handleFinalizeMix s) <> []).

(** The specification's wording of the reset: New Mix clears every
    transient cell. *)
Definition cleared (s : State) : Prop :=
  vocalAudio s = None /\ beatAudio s = None
  /\ processingId s = Js.null /\ offsetBeats s = 0%Q
  /\ previewUrl s = None /\ processedAudio s = None.

Definition new_mix_clears_all : Prop :=
  forall w w', reachable w -> step ClickNewMix w = Some w' -> cleared (view w').

Definition vocal : File := mkFile "vocal.wav" "audio/wav" 1.
Definition beat : File := mkFile "beat.wav" "audio/wav" 1.

(** Both files are chosen and the preview of job [id] is prepared. *)
Definition prepare (id : string) : list Event :=
  [ VocalAudioChange (Some vocal);
    BeatAudioChange (Some beat);
    ClickSubmit;
    PrepareReply 0 (Fulfilled {| processing_id := Js.str id;
                                 preview_url := Js.str "/preview/p1";
                                 offset_beats := None |}) ].

Definition previewing (id : string) : State :=
  mkState (Some vocal) (Some beat) "" "" "" "" false None None
          (Js.str id) 0%Q (Some "/api/preview/p1") false false true.

(** "Later" and "Finalize Mix" are clicked before either reply
    arrives. *)
Definition race : list Event :=
  prepare "p1" ++ [ClickLater; ClickFinalize].

Definition racing : World :=
  mkWorld
    (previewing "p1" |> setOffsetBeats (1 # 4) |> setIsAdjusting true
                     |> setIsMerging true)
    fresh_browser
    [adjust_request (Js.str "p1") (1 # 4); finalize_request (Js.str "p1")]
    true.

(** "Later" is clicked and the network is down. *)
Definition failed_nudge : list Event :=
  prepare "p1"
  ++ [ClickLater; AdjustReply 0 (Rejected (mkAxiosError "Network Error" None)) 0].

(** A whole session: two files, prepare, finalize. *)
Definition session : list Event :=
  prepare "p1" ++ [ClickFinalize; FinalizeReply 0 (Fulfilled tt)].

Definition mixed : World :=
  mkWorld
    (previewing "p1" |> setProcessedAudio (Some 0) |> setIsPreviewMode false)
    (mkBrowser 1 [0]) [] true.

Definition remixing : World :=
  mkWorld (initial |> setVocalAudio (Some vocal) |> setBeatAudio (Some beat))
          (mkBrowser 1 []) [] true.

(** *** What else holds in reachable worlds *)

(** How the flags and cells of a view hang together. *)
Definition coherent (s : State) : bool :=
  implb (isPreviewMode s) (Js.truthy_opt (previewUrl s))
  && implb (Js.has (processedAudio s))
           (negb (isPreviewMode s) && negb (isProcessing s))
  && implb (isMerging s) (isPreviewMode s)
  && implb (isProcessing s) (negb (isPreviewMode s))
  && implb (isProcessing s || isPreviewMode s || Js.has (processedAudio s))
           (Js.has (vocalAudio s) && Js.has (beatAudio s)).

(** The panels of the render: form, preview, final mix. *)
Definition panels (s : State) : nat :=
  b2n (form_shown s) + b2n (preview_shown s) + b2n (final_shown s).



(** The preview of job [old] is open and "later" was clicked; the mix
    is finalized, New Mix and a second prepare follow, and only then the
    reply to "later" arrives. *)
Definition overtaken (old new : string) (now : N) : list Event :=
  [ VocalAudioChange (Some vocal);
    BeatAudioChange (Some beat);
    ClickSubmit;
    PrepareReply 0 (Fulfilled {| processing_id := Js.str "job-1";
                                 preview_url := Js.str old;
                                 offset_beats := None |});
    ClickLater;
    ClickFinalize;
    FinalizeReply 1 (Fulfilled tt);
    ClickNewMix;
    ClickSubmit;
    PrepareReply 1 (Fulfilled {| processing_id := Js.str "job-2";
                                 preview_url := Js.str new;
                                 offset_beats := None |});
    AdjustReply 0 (Fulfilled {| adjusted_preview_url := Js.str old |}) now ].

(** Where [failed_nudge] and [overtaken] end. *)
Definition stranded : World :=
  mkWorld (previewing "p1" |> setOffsetBeats (1 # 4)
             |> setError (Some "Error processing audio: Network Error"))
          fresh_browser [] true.

Definition overtaken_view (old : string) (now : N) : State :=
  previewing "job-2"
    |> setPreviewUrl (Some ("/api" +++ old +++ "?t=" +++ show_time now)).

End MixApp.

(** ** The greeting page (first component of [part_001]) *)

Module HelloApp.

Record State : Type := mkState { message : Js.value }.

Definition initial : State := mkState (Js.str "").

Inductive Effect : Type :=
| GetRoot (url : string).

(** The effect of the mount: [axios.get("/api/")]. *)
Definition mount : list Effect := [GetRoot "/api/"].

(** [.catch]: the failure goes to the console. *)
Definition get_catch (err : AxiosError) (s : State) : State * list Effect :=
  (s, []).

(** [.then]: a body that is [null] makes the read of [message] throw,
    which the [.catch] of the chain receives. *)
Definition get_then (data : option Js.value) (s : State) : State * list Effect :=
  match data with
  | Some m => (mkState m, [])
  | None => get_catch (mkAxiosError "Cannot read properties of null" None) s
  end.

Definition settle (r : Reply (option Js.value)) (s : State) : State * list Effect :=
  match r with
  | Fulfilled d => get_then d s
  | Rejected err => get_catch err s
  end.

(** [{message || "Loading..."}] *)
Definition body_text (s : State) : string :=
  Js.or_else (message s) "Loading...".

End HelloApp.

(** ** What a [catch] block has to leave behind

    [r] is what the block returned; [settled r] is the state once the
    file readers it started have loaded.  No request is among the
    effects, the in-progress flag is down at once and stays down, and
    the message cell holds a non-empty string. *)

Definition caught {S E : Type} (flag : S -> bool) (error : S -> option string)
    (is_request : E -> bool) (settled : S * list E -> S) (r : S * list E) : Prop :=
  filter is_request (snd r) = []
  /\ flag (fst r) = false
  /\ flag (settled r) = false
  /\ exists m, error (settled r) = Some m /\ nonempty m.

(** * Properties *)

Lemma append_nonempty (p s : string) : nonempty p -> nonempty (p +++ s).
Proof.
  unfold nonempty. destruct p as [|c p]; [congruence | simpl; discriminate].
Qed.

Lemma literal_nonempty (c : ascii) (s : string) : nonempty (String c s).
Proof. discriminate. Qed.

#[export] Hint Resolve append_nonempty literal_nonempty : simul.

Lemma filter_remove_nth {A : Type} (p : A -> bool) :
  forall (i : nat) (l : list A) (x : A),
    nth_error l i = Some x ->
    length (filter p l) = length (filter p (remove_nth i l)) + b2n (p x).
Proof.
  induction i as [|i IH]; intros [|y l] x H; try discriminate; cbn in *.
  - injection H as ->. destruct (p x); cbn; lia.
  - destruct (p y); cbn; rewrite (IH l x H); lia.
Qed.

(** ** The job-polling form *)

Module PollFacts.
Import PollApp.

Lemma step_processing (s : State) (j : Js.value) (log : list Effect) :
  step (says "processing") (mkWorld s (pollStatus j) log)
  = Some (mkWorld s [SetTimeout 2000 j] (log ++ [SetTimeout 2000 j])).
Proof. reflexivity. Qed.

Lemma step_timer (s : State) (j : Js.value) (log : list Effect) :
  step (TimerFires 0) (mkWorld s [SetTimeout 2000 j] log)
  = Some (mkWorld s (pollStatus j) (log ++ pollStatus j)).
Proof. reflexivity. Qed.

Lemma step_completed (s : State) (j : Js.value) (log : list Effect) :
  step (says "completed") (mkWorld s (pollStatus j) log)
  = Some (mkWorld (done j s) [] (log ++ [])).
Proof. reflexivity. Qed.

(** One GET is pending; [n] rounds later the job completes. *)
Lemma poll_loop (n : nat) :
  forall (s : State) (j : Js.value) (log : list Effect),
    run (polling n (says "completed")) (mkWorld s (pollStatus j) log)
    = Some (mkWorld (done j s) [] (log ++ repolls n j)).
Proof.
  induction n as [|n IH]; intros s j log.
  - cbn [polling run repolls]. now rewrite step_completed.
  - cbn [polling run repolls].
    change (StatusReply 0 (Fulfilled (Some {| reported := Js.str "processing" |})))
      with (says "processing").
    rewrite step_processing, step_timer, IH.
    do 2 f_equal. rewrite <- !app_assoc. reflexivity.
Qed.

(** C6.  Once the POST is answered with a job identifier [j], the
    component sends a GET for the status of [j]; every answer
    'processing' arms a 2000 ms timer whose expiry sends the same GET
    again; the answer 'completed' is followed by no further effect,
    clears [processing], sets the status to 'completed' and stores the
    download URL of [j]. *)
Theorem C6_polls_until_completed (n : nat) (s : State) (url : string)
    (form : FormData) (j : Js.value) (log : list Effect) :
  run (ProcessReply 0 (Fulfilled (Some {| job_id := j |}))
         :: polling n (says "completed"))
      (mkWorld s [PostProcess url form] log)
  = Some (mkWorld (s |> setJobId j |> done j) []
            (log ++ pollStatus j ++ repolls n j))
  /\ pollStatus j = [GetStatus (API_URL +++ "/status/" +++ Js.to_string j) j]
  /\ status (s |> setJobId j |> done j) = "completed"
  /\ processing (s |> setJobId j |> done j) = false
  /\ downloadUrl (s |> setJobId j |> done j)
     = Some (API_URL +++ "/download/" +++ Js.to_string j).
Proof.
  repeat split.
  cbn [run].
  replace (step (ProcessReply 0 (Fulfilled (Some {| job_id := j |})))
             (mkWorld s [PostProcess url form] log))
    with (Some (mkWorld (setJobId j s) (pollStatus j) (log ++ pollStatus j)))
    by reflexivity.
  rewrite poll_loop. now rewrite <- app_assoc.
Qed.

(** The timers of the loop are all of 2000 ms and the GETs all ask
    for the same job. *)
Lemma repolls_shape (n : nat) (j : Js.value) :
  Forall (fun e => e = SetTimeout 2000 j
                   \/ e = GetStatus (API_URL +++ "/status/" +++ Js.to_string j) j)
         (repolls n j)
  /\ length (filter is_request (repolls n j)) = n.
Proof.
  induction n as [|n [IHf IHc]]; cbn; split; auto.
Qed.

Lemma poll_submit_enabled_iff (s : State) :
  submit_enabled s = true
  <-> (vocalFile s <> None /\ beatFile s <> None /\ processing s = false).
Proof.
  unfold submit_enabled.
  destruct (vocalFile s), (beatFile s), (processing s); cbn;
    intuition congruence.
Qed.

Lemma handleSubmit_missing_file (s : State) :
  vocalFile s = None \/ beatFile s = None ->
  handleSubmit s = (s |> setError "Please upload both vocal and beat files", []).
Proof.
  unfold handleSubmit. intros [H|H]; rewrite H; [|destruct (vocalFile s)];
    reflexivity.
Qed.

(** The message of the missing-file branch is drawn by
    [getStatusDisplay] only under the status 'error', which that
    branch does not set. *)
Lemma missing_file_display (s : State) :
  vocalFile s = None \/ beatFile s = None ->
  getStatusDisplay (fst (handleSubmit s))
  = if status s =? "error"
    then ShowError "Please upload both vocal and beat files"
    else getStatusDisplay s.
Proof.
  intros H. rewrite handleSubmit_missing_file by exact H.
  unfold getStatusDisplay. cbn.
  destruct (status s =? "processing") eqn:E1.
  - apply String.eqb_eq in E1. rewrite E1. reflexivity.
  - destruct (status s =? "completed") eqn:E2.
    + apply String.eqb_eq in E2. rewrite E2. reflexivity.
    + destruct (status s =? "error"); reflexivity.
Qed.

(** C10.  A reply whose [status] is neither 'completed' nor
    'processing' (an unknown string, [null], or no such field) starts
    no timer and no request, clears [processing] and sets the error
    message to 'Processing failed'. *)
Theorem C10_other_status_fails (id st : Js.value) (s : State) :
  Js.strict_eq st "completed" = false ->
  Js.strict_eq st "processing" = false ->
  pollStatus_then id (Some {| reported := st |}) s
  = (s |> setStatus "error" |> setProcessing false
       |> setError "Processing failed", [])
  /\ snd (pollStatus_then id (Some {| reported := st |}) s) = []
  /\ processing (fst (pollStatus_then id (Some {| reported := st |}) s)) = false
  /\ error (fst (pollStatus_then id (Some {| reported := st |}) s))
     = "Processing failed".
Proof.
  intros Hc Hp. unfold pollStatus_then. cbn [reported].
  rewrite Hc, Hp. repeat split.
Qed.

(** C10 for a reply without a [status] field. *)
Lemma C10_witness :
  error (fst (pollStatus_then (Js.str "job-1")
                (Some {| reported := Js.undefined |}) initial))
  = "Processing failed".
Proof.
  apply (C10_other_status_fails (Js.str "job-1") Js.undefined initial);
    reflexivity.
Defined.

(** A body that is [null] is not a reported status: the read throws
    and the [catch] of [pollStatus] answers. *)
Lemma null_body_is_caught (id : Js.value) (s : State) :
  pollStatus_then id None s = pollStatus_catch thrown_on_null s.
Proof. reflexivity. Qed.

Lemma poll_submit_caught (err : AxiosError) (s : State) :
  caught processing message_cell is_request fst (handleSubmit_catch err s).
Proof.
  unfold caught, handleSubmit_catch, message_cell. cbn.
  repeat split. eexists. split; [reflexivity | auto with simul].
Qed.

Lemma poll_status_caught (err : AxiosError) (s : State) :
  caught processing message_cell is_request fst (pollStatus_catch err s).
Proof.
  unfold caught, pollStatus_catch, message_cell. cbn.
  repeat split. eexists. split; [reflexivity | auto with simul].
Qed.

End PollFacts.

(** ** The prepare / adjust / finalize workflow *)

Module MixFacts.
Import MixApp.

(** *** [handleApiError] *)

Lemma handleApiError_cases (err : AxiosError) (s : State) :
  (exists m, handleApiError err s = (setError (Some m) s, []) /\ nonempty m)
  \/ (exists c, handleApiError err s = (s, [ReadAsText c (message err)])).
Proof.
  unfold handleApiError.
  destruct (response err) as [[ | t | e | c]|]; cbn.
  - left. eexists. split; [reflexivity | auto with simul].
  - left. destruct (t =? ""); cbn; eexists; (split; [reflexivity | auto with simul]).
  - left. eexists. split; [reflexivity | auto with simul].
  - right. eexists. reflexivity.
  - left. eexists. split; [reflexivity | auto with simul].
Qed.

Lemma onload_sets_message (c : Parsed) (msg : string) (s : State) :
  exists m, handleApiError_onload c msg s = setError (Some m) s /\ nonempty m.
Proof.
  destruct c; cbn; eexists; (split; [reflexivity | auto with simul]).
Qed.

(** What a [catch] block built as "[handleApiError(err)]; clear the
    flag" leaves behind, for the setter [clear] of any flag. *)
Section CatchBlock.
Variable clear : State -> State.
Hypothesis clear_commutes :
  forall m s, clear (setError m s) = setError m (clear s).

Let catch (err : AxiosError) (s : State) : State * list Effect :=
  let (s1, effs) := handleApiError err s in (clear s1, effs).

Lemma catch_block (err : AxiosError) (s : State) :
  filter is_request (snd (catch err s)) = []
  /\ (exists m, after_readers (catch err s) = setError (Some m) (clear s)
                /\ nonempty m).
Proof.
  unfold catch.
  destruct (handleApiError_cases err s) as [(m & E & Hm) | (c & E)];
    rewrite E.
  - split; [reflexivity|]. exists m. split; [apply clear_commutes | exact Hm].
  - split; [reflexivity|]. unfold after_readers. cbn [snd fst fold_left].
    apply onload_sets_message.
Qed.
End CatchBlock.

Lemma handleSubmit_catch_spec (err : AxiosError) (s : State) :
  filter is_request (snd (handleSubmit_catch err s)) = []
  /\ isProcessing (fst (handleSubmit_catch err s)) = false
  /\ exists m, after_readers (handleSubmit_catch err s)
               = setError (Some m) (setIsProcessing false s)
               /\ nonempty m.
Proof.
  destruct (catch_block (setIsProcessing false)
              (fun _ _ => eq_refl) err s) as [Hr Hm].
  repeat split; try assumption.
  unfold handleSubmit_catch. destruct (handleApiError err s). reflexivity.
Qed.

Lemma handleOffsetChange_catch_spec (err : AxiosError) (s : State) :
  filter is_request (snd (handleOffsetChange_catch err s)) = []
  /\ isAdjusting (fst (handleOffsetChange_catch err s)) = false
  /\ exists m, after_readers (handleOffsetChange_catch err s)
               = setError (Some m) (setIsAdjusting false s)
               /\ nonempty m.
Proof.
  destruct (catch_block (setIsAdjusting false)
              (fun _ _ => eq_refl) err s) as [Hr Hm].
  repeat split; try assumption.
  unfold handleOffsetChange_catch. destruct (handleApiError err s). reflexivity.
Qed.

Lemma handleFinalizeMix_catch_spec (err : AxiosError) (s : State) :
  filter is_request (snd (handleFinalizeMix_catch err s)) = []
  /\ isMerging (fst (handleFinalizeMix_catch err s)) = false
  /\ exists m, after_readers (handleFinalizeMix_catch err s)
               = setError (Some m) (setIsMerging false s)
               /\ nonempty m.
Proof.
  destruct (catch_block (setIsMerging false)
              (fun _ _ => eq_refl) err s) as [Hr Hm].
  repeat split; try assumption.
  unfold handleFinalizeMix_catch. destruct (handleApiError err s). reflexivity.
Qed.

(** *** The identifier guard *)

(** C3, as amended.  [handleOffsetChange] and [handleFinalizeMix] test
    the stored identifier for truthiness and nothing else.  When it is
    falsy ([null], [undefined], or the empty string) they return at
    once: same state, no request.  When it is truthy they send the
    request, whatever the offset is; and when that request is rejected
    no request follows. *)
Theorem C3_truthiness_guard (s : State) (newOffset : Q) :
  (if Js.truthy (processingId s)
   then handleOffsetChange newOffset s
        = (s |> setIsAdjusting true |> setOffsetBeats newOffset,
           [adjust_request (processingId s) newOffset])
        /\ handleFinalizeMix s
           = (s |> setIsMerging true, [finalize_request (processingId s)])
   else handleOffsetChange newOffset s = (s, [])
        /\ handleFinalizeMix s = (s, []))
  /\ (forall (err : AxiosError) (s' : State),
        filter is_request (snd (handleOffsetChange_catch err s')) = []
        /\ filter is_request (snd (handleFinalizeMix_catch err s')) = []).
Proof.
  split.
  - unfold handleOffsetChange, handleFinalizeMix.
    destruct (Js.truthy (processingId s)); cbn; split; reflexivity.
  - intros err s'. split.
    + apply handleOffsetChange_catch_spec.
    + apply handleFinalizeMix_catch_spec.
Qed.

(** C3, as worded, fails.  The server answers the prepare request
    with the identifier [""]: the preview panel is drawn, the
    identifier is neither [null] nor [undefined], and both handlers
    return without sending anything. *)
Lemma C3_empty_identifier :
  run (prepare "") boot = Some (mkWorld (previewing "") fresh_browser [] true)
  /\ processingId (previewing "") <> Js.null
  /\ processingId (previewing "") <> Js.undefined
  /\ handleFinalizeMix (previewing "") = (previewing "", [])
  /\ handleOffsetChange (1 # 4) (previewing "") = (previewing "", [])
  /\ ~ null_guard.
Proof.
  split; [vm_compute; reflexivity|].
  repeat split; try discriminate.
  intros H.
  destruct (H (previewing "") (1 # 4)%Q) as [_ Hsend].
  destruct Hsend as [_ Hfin].
  - intros [E | E]; discriminate E.
  - apply Hfin. reflexivity.
Qed.

(** *** Quarter beats *)





(** *** A rejected adjustment *)

(** C9.  [handleOffsetChange] stores the new offset before it awaits
    the request; when the request is rejected the [catch] block (and
    the reader it may start) stores a message and clears
    [isAdjusting], and leaves the new offset and the old preview URL
    in place. *)
Theorem C9_offset_kept_on_failure (s : State) (newOffset : Q)
    (err : AxiosError) :
  Js.truthy (processingId s) = true ->
  let sent := handleOffsetChange newOffset s in
  let failed := after_readers (handleOffsetChange_catch err (fst sent)) in
  snd sent = [adjust_request (processingId s) newOffset]
  /\ offsetBeats (fst sent) = newOffset
  /\ offsetBeats failed = newOffset
  /\ previewUrl failed = previewUrl s
  /\ isAdjusting failed = false
  /\ exists m, error failed = Some m /\ nonempty m.
Proof.
  intros H sent failed.
  assert (Hs : sent = (s |> setIsAdjusting true |> setOffsetBeats newOffset,
                       [adjust_request (processingId s) newOffset])).
  { unfold sent, handleOffsetChange. rewrite H. reflexivity. }
  destruct (handleOffsetChange_catch_spec err (fst sent)) as (_ & _ & m & Hm & Hne).
  unfold failed. rewrite Hm, Hs. cbn. repeat split. eauto.
Qed.

(** C9 for a transport failure. *)
Lemma C9_witness :
  offsetBeats
    (after_readers
       (handleOffsetChange_catch (mkAxiosError "Network Error" None)
          (fst (handleOffsetChange (3 # 4)
                  (initial |> setProcessingId (Js.str "p1"))))))
  = (3 # 4)%Q.
Proof.
  apply (C9_offset_kept_on_failure (initial |> setProcessingId (Js.str "p1"))
           (3 # 4)%Q (mkAxiosError "Network Error" None) eq_refl).
Defined.

(** The rejected "later" of [failed_nudge]: the view shows a quarter
    beat over the preview that was made for offset 0. *)
Lemma nudge_without_preview :
  exists w, run failed_nudge boot = Some w
            /\ offsetBeats (view w) = (1 # 4)%Q
            /\ previewUrl (view w) = previewUrl (previewing "p1")
            /\ error (view w) = Some "Error processing audio: Network Error"
            /\ tasks w = [].
Proof. eexists. split; [vm_compute; reflexivity | repeat split]. Qed.

(** *** One request of each kind *)

Lemma boot_flags_count : flags_count boot.
Proof. split; reflexivity. Qed.

Ltac split_guard H :=
  unfold guard in H;
  match type of H with
  | (if ?c then _ else _) = _ => destruct c eqn:?; [|discriminate H]
  end;
  injection H as <-.

Ltac case_state s :=
  destruct s; cbn in *;
  repeat match goal with
         | |- context [if ?c then _ else _] => destruct c eqn:?; cbn in *
         | H : context [if ?c then _ else _] |- _ => destruct c eqn:?; cbn in *
         | |- context [match ?c with Some _ => _ | None => _ end] =>
             destruct c eqn:?; cbn in *
         end.

Ltac by_cases s :=
  split; unfold count, act, render in *; cbn [tasks view fst snd] in *;
  rewrite filter_app, length_app;
  match goal with
  | H : length _ = _ |- _ => rewrite H
  end;
  case_state s; try reflexivity; try discriminate; try lia;
  repeat match goal with
         | x : bool |- _ => destruct x
         end;
  cbn in *; try reflexivity; try discriminate; try lia.

Lemma click_flags_count (e : Event) (w w' : World) :
  is_user_action e = true ->
  step e w = Some w' -> flags_count w -> flags_count w'.
Proof.
  intros Hu Hstep [Hp Ha Hf].
  unfold step in Hstep. destruct (mounted w); [cbn [negb] in Hstep | discriminate].
  destruct w as [s b ts m]. cbn [view tasks browser] in *.
  unfold count in Hp, Ha, Hf. cbn [tasks view] in Hp, Ha, Hf.
  destruct e; try discriminate Hu; split_guard Hstep;
    unfold submit_enabled, nudge_enabled, reset_enabled, finalize_enabled,
      form_shown, preview_shown, final_shown in *;
    unfold handleQuarterBeatAdjustment, resetOffset, handleOffsetChange,
      handleFinalizeMix, handleSubmit, handleVocalAudioChange,
      handleBeatAudioChange, newMix in *;
    by_cases s.
Qed.

Lemma filter_task (p : Effect -> bool) (l : list Effect) :
  (forall e, p e = true -> is_task e = true) ->
  filter p (filter is_task l) = filter p l.
Proof.
  intros Hp. induction l as [|e l IH]; [reflexivity|]. cbn.
  destruct (is_task e) eqn:T; cbn; rewrite IH; [reflexivity|].
  destruct (p e) eqn:P; [|reflexivity].
  apply Hp in P. congruence.
Qed.

(** A reply to the pending effect [x] ran the continuation [r]. *)
Lemma settle_count (p : Effect -> bool) (i : nat) (x : Effect)
    (b : Browser) (r : State * list Effect) (w : World) :
  (forall e, p e = true -> is_task e = true) ->
  nth_error (tasks w) i = Some x ->
  count p (render (remove_nth i (tasks w)) b r w) + b2n (p x)
  = count p w + length (filter p (snd r)).
Proof.
  intros Hp N. unfold count, render. cbn [tasks].
  rewrite filter_app, length_app, (filter_task p _ Hp).
  rewrite (filter_remove_nth p i (tasks w) x N). lia.
Qed.

Lemma settle_flags_count (i : nat) (x : Effect) (b : Browser)
    (r : State * list Effect) (w : World) :
  nth_error (tasks w) i = Some x ->
  flags_count w ->
  (b2n (is_prepare x) <= b2n (isProcessing (view w)) ->
   b2n (isProcessing (fst r)) + b2n (is_prepare x)
   = b2n (isProcessing (view w)) + length (filter is_prepare (snd r))) ->
  (b2n (is_adjust x) <= b2n (isAdjusting (view w)) ->
   b2n (isAdjusting (fst r)) + b2n (is_adjust x)
   = b2n (isAdjusting (view w)) + length (filter is_adjust (snd r))) ->
  (b2n (is_finalize x) <= b2n (isMerging (view w)) ->
   b2n (isMerging (fst r)) + b2n (is_finalize x)
   = b2n (isMerging (view w)) + length (filter is_finalize (snd r))) ->
  flags_count (render (remove_nth i (tasks w)) b r w).
Proof.
  intros N [Hp Ha Hf] Dp Da Df.
  assert (Tp : forall e, is_prepare e = true -> is_task e = true)
    by (intros []; cbn; congruence).
  assert (Ta : forall e, is_adjust e = true -> is_task e = true)
    by (intros []; cbn; congruence).
  assert (Tf : forall e, is_finalize e = true -> is_task e = true)
    by (intros []; cbn; congruence).
  pose proof (settle_count is_prepare i x b r w Tp N) as Cp.
  pose proof (settle_count is_adjust i x b r w Ta N) as Ca.
  pose proof (settle_count is_finalize i x b r w Tf N) as Cf.
  pose proof (filter_remove_nth is_prepare i (tasks w) x N) as Rp.
  pose proof (filter_remove_nth is_adjust i (tasks w) x N) as Ra.
  pose proof (filter_remove_nth is_finalize i (tasks w) x N) as Rf.
  unfold count in *.
  split; unfold count; cbn [view render]; lia.
Qed.

Ltac catch_cases err s :=
  unfold handleSubmit_catch, handleOffsetChange_catch, handleFinalizeMix_catch;
  destruct (handleApiError_cases err s) as [(?m & ?E & _) | (?c & ?E)];
  rewrite E; cbn.

Ltac flag_arith :=
  cbn;
  repeat match goal with
         | |- context [isProcessing ?s] => destruct (isProcessing s)
         | |- context [isAdjusting ?s] => destruct (isAdjusting s)
         | |- context [isMerging ?s] => destruct (isMerging s)
         end;
  cbn; lia.

Lemma reply_flags_count (e : Event) (w w' : World) :
  is_user_action e = false ->
  step e w = Some w' -> flags_count w -> flags_count w'.
Proof.
  intros Hu Hstep Hw.
  unfold step in Hstep. destruct (mounted w); [cbn [negb] in Hstep | discriminate].
  destruct e; try discriminate Hu.
  - destruct (nth_error (tasks w) i) as [[]|] eqn:N; try discriminate.
    injection Hstep as <-.
    apply (settle_flags_count _ _ _ _ _ N Hw); destruct r as [d | err];
      try catch_cases err (view w); flag_arith.
  - destruct (nth_error (tasks w) i) as [[]|] eqn:N; try discriminate.
    injection Hstep as <-.
    apply (settle_flags_count _ _ _ _ _ N Hw); destruct r as [d | err];
      try catch_cases err (view w); flag_arith.
  - destruct (nth_error (tasks w) i) as [[]|] eqn:N; try discriminate.
    injection Hstep as <-. destruct r as [d | err].
    + unfold handleFinalizeMix_then. cbn [createObjectURL].
      apply (settle_flags_count _ _ _ _ _ N Hw);
        cbn [fst snd]; destruct (audio_mounted (view w)); flag_arith.
    + apply (settle_flags_count _ _ _ _ _ N Hw);
        catch_cases err (view w); flag_arith.
  - destruct (nth_error (tasks w) i) as [[]|] eqn:N; try discriminate.
    injection Hstep as <-.
    apply (settle_flags_count _ _ _ _ _ N Hw); destruct content; flag_arith.
  - injection Hstep as <-. destruct Hw. split; assumption.
Qed.

Lemma step_flags_count (e : Event) (w w' : World) :
  step e w = Some w' -> flags_count w -> flags_count w'.
Proof.
  destruct (is_user_action e) eqn:U.
  - now apply click_flags_count.
  - now apply reply_flags_count.
Qed.

Lemma run_flags_count (es : list Event) :
  forall w w', run es w = Some w' -> flags_count w -> flags_count w'.
Proof.
  induction es as [|e es IH]; intros w w' H Hw; cbn in H.
  - now injection H as <-.
  - destruct (step e w) as [w1|] eqn:S; [|discriminate].
    eapply IH; [exact H|]. eapply step_flags_count; eassumption.
Qed.

Lemma reachable_flags_count (w : World) : reachable w -> flags_count w.
Proof.
  intros [es H]. eapply run_flags_count; [exact H | exact boot_flags_count].
Qed.

Lemma in_flight_by_kind (w : World) :
  in_flight w = count is_prepare w + count is_adjust w + count is_finalize w.
Proof.
  unfold in_flight, count. induction (tasks w) as [|e l IH]; [reflexivity|].
  destruct e; cbn; lia.
Qed.

(** C2, as amended.  In every state of the workflow component that a
    sequence of clicks and replies leads to, at most one prepare
    request, at most one offset-adjustment request and at most one
    finalize request is pending, because each control is disabled (or
    its panel is not drawn) while a request of its own kind is
    pending.  Nothing couples the kinds to each other. *)
Theorem C2_one_request_per_kind (w : World) :
  reachable w ->
  count is_prepare w <= 1 /\ count is_adjust w <= 1 /\ count is_finalize w <= 1
  /\ (count is_prepare w = 0 \/ submit_enabled (view w) = false)
  /\ (count is_adjust w = 0
      \/ (nudge_enabled (view w) = false /\ reset_enabled (view w) = false))
  /\ (count is_finalize w = 0 \/ finalize_enabled (view w) = false).
Proof.
  intros R. destruct (reachable_flags_count w R) as [Hp Ha Hf].
  rewrite Hp, Ha, Hf.
  unfold submit_enabled, nudge_enabled, reset_enabled, finalize_enabled.
  destruct (isProcessing (view w)), (isAdjusting (view w)), (isMerging (view w));
    cbn [b2n negb orb];
    rewrite ?orb_true_r, ?andb_false_r;
    repeat split; try lia; auto.
Qed.

Lemma race_runs : run race boot = Some racing.
Proof. vm_compute. reflexivity. Qed.

(** C2 at the world [racing]. *)
Lemma C2_witness :
  count is_prepare racing <= 1 /\ count is_adjust racing <= 1
  /\ count is_finalize racing <= 1.
Proof.
  destruct (C2_one_request_per_kind racing (ex_intro _ race race_runs))
    as (Hp & Ha & Hf & _).
  repeat split; assumption.
Defined.

(** C2, as worded, fails: after [race] an offset-adjustment request
    and a finalize request are pending together. *)
Lemma C2_two_requests_pending :
  reachable racing /\ in_flight racing = 2 /\ ~ one_request_at_a_time.
Proof.
  assert (R : reachable racing) by (exists race; exact race_runs).
  repeat split; [exact R|].
  intros H. specialize (H racing R). vm_compute in H. lia.
Qed.

(** With the adjustment still pending the Finalize button is live. *)
Lemma finalize_live_while_adjusting :
  exists w, run (removelast race) boot = Some w
            /\ count is_adjust w = 1 /\ finalize_enabled (view w) = true.
Proof. eexists. split; [vm_compute; reflexivity | split; reflexivity]. Qed.

(** *** Object URLs of the workflow component *)

Lemma boot_urls_ok : urls_ok boot.
Proof. split; constructor. Qed.

Lemma same_url_refl (o : option ObjectURL) : same_url o o = true.
Proof. destruct o; cbn; [apply Nat.eqb_refl | reflexivity]. Qed.

Lemma remove_only (u : ObjectURL) : remove Nat.eq_dec u [u] = [].
Proof. cbn. destruct (Nat.eq_dec u u); congruence. Qed.

(** A handler that keeps [processedAudio] or stores [null] in it. *)
Lemma render_urls_ok (ts : list Effect) (r : State * list Effect) (w : World) :
  urls_ok w -> mounted w = true ->
  processedAudio (fst r) = processedAudio (view w)
  \/ processedAudio (fst r) = None ->
  urls_ok (render ts (browser w) r w).
Proof.
  intros [Hl Hb] M H. rewrite M in Hl.
  destruct r as [s' effs]. cbn [fst] in H.
  unfold render, commit. cbn [fst snd].
  split; cbn [browser mounted view]; destruct H as [E | E]; rewrite E.
  - now rewrite same_url_refl.
  - destruct (processedAudio (view w)) as [u|]; cbn in *.
    + now rewrite Hl, remove_only.
    + exact Hl.
  - now rewrite same_url_refl.
  - destruct (processedAudio (view w)) as [u|]; cbn in *.
    + rewrite Hl, remove_only. constructor.
    + exact Hb.
Qed.

(** [handleFinalizeMix] after a fulfilled reply. *)
Lemma finalize_urls_ok (ts : list Effect) (w : World) :
  urls_ok w -> mounted w = true ->
  urls_ok (let (b', r') := handleFinalizeMix_then (browser w) (view w) in
           render ts b' r' w).
Proof.
  intros [Hl Hb] M. rewrite M in Hl.
  unfold handleFinalizeMix_then, createObjectURL, render, commit.
  cbn [fst snd processedAudio setIsMerging setIsPreviewMode setProcessedAudio].
  destruct (processedAudio (view w)) as [u|] eqn:P; cbn in Hl.
  - rewrite Hl in Hb. inversion Hb as [|? ? Hu _]; subst.
    cbn [same_url]. destruct (Nat.eqb_spec u (next_url (browser w))) as [Eq|Ne];
      [lia|].
    unfold cleanup, revokeObjectURL. cbn. rewrite Hl. cbn.
    destruct (Nat.eq_dec u (next_url (browser w))); [lia|].
    destruct (Nat.eq_dec u u); [|congruence].
    split; cbn; [reflexivity | constructor; [lia | constructor]].
  - cbn. rewrite Hl. split; cbn; [reflexivity | constructor; [lia | constructor]].
Qed.

Ltac keeps_url :=
  first [ left; reflexivity | right; reflexivity ].

Lemma step_urls_ok (e : Event) (w w' : World) :
  step e w = Some w' -> urls_ok w -> urls_ok w'.
Proof.
  intros Hstep Hw.
  unfold step in Hstep.
  destruct (mounted w) eqn:M; [cbn [negb] in Hstep | discriminate].
  destruct e;
    try (split_guard Hstep; apply render_urls_ok; try assumption).
  - destruct files0; keeps_url.
  - destruct files0; keeps_url.
  - keeps_url.
  - keeps_url.
  - keeps_url.
  - keeps_url.
  - unfold handleSubmit.
    destruct (vocalAudio (view w)), (beatAudio (view w)); keeps_url.
  - unfold handleQuarterBeatAdjustment, handleOffsetChange.
    destruct (Js.truthy (processingId (view w))); keeps_url.
  - unfold resetOffset, handleOffsetChange.
    destruct (Js.truthy (processingId (view w))); keeps_url.
  - unfold handleQuarterBeatAdjustment, handleOffsetChange.
    destruct (Js.truthy (processingId (view w))); keeps_url.
  - unfold handleFinalizeMix.
    destruct (Js.truthy (processingId (view w))); keeps_url.
  - keeps_url.
  - destruct (nth_error (tasks w) i) as [[]|]; try discriminate.
    injection Hstep as <-. apply render_urls_ok; try assumption.
    destruct r as [d | err]; [keeps_url|].
    catch_cases err (view w); keeps_url.
  - destruct (nth_error (tasks w) i) as [[]|]; try discriminate.
    injection Hstep as <-. apply render_urls_ok; try assumption.
    destruct r as [d | err]; [keeps_url|].
    catch_cases err (view w); keeps_url.
  - destruct (nth_error (tasks w) i) as [[]|]; try discriminate.
    injection Hstep as <-. destruct r as [d | err].
    + now apply finalize_urls_ok.
    + apply render_urls_ok; try assumption.
      catch_cases err (view w); keeps_url.
  - destruct (nth_error (tasks w) i) as [[]|]; try discriminate.
    injection Hstep as <-. apply render_urls_ok; try assumption.
    destruct content; keeps_url.
  - injection Hstep as <-. destruct Hw as [Hl Hb]. rewrite M in Hl.
    split; cbn [browser mounted];
      destruct (processedAudio (view w)) as [u|]; cbn in *;
      rewrite Hl, ?remove_only; constructor.
Qed.

Lemma run_urls_ok (es : list Event) :
  forall w w', run es w = Some w' -> urls_ok w -> urls_ok w'.
Proof.
  induction es as [|e es IH]; intros w w' H Hw; cbn in H.
  - now injection H as <-.
  - destruct (step e w) as [w1|] eqn:S; [|discriminate].
    eapply IH; [exact H|]. eapply step_urls_ok; eassumption.
Qed.


(** *** New Mix *)

Lemma reachable_urls_ok (w : World) : reachable w -> urls_ok w.
Proof.
  intros [es R]. eapply run_urls_ok; [exact R | exact boot_urls_ok].
Qed.

(** C5, as amended.  The file cells are set by the two file inputs,
    the identifier, the offset and the preview URL by the reply to the
    prepare request, the object URL of the mix by the reply to the
    finalize request.  New Mix stores [null] in the identifier, the
    preview URL and the mix URL (which the effect cleanup then
    revokes) and 0 in the offset; it leaves the two selected files,
    the key and BPM fields and the message as they are. *)
Theorem C5_new_mix_resets_the_job (w w' : World) :
  reachable w ->
  step ClickNewMix w = Some w' ->
  (view w' = newMix (view w)
   /\ processingId (view w') = Js.null
   /\ offsetBeats (view w') = 0%Q
   /\ previewUrl (view w') = None
   /\ processedAudio (view w') = None
   /\ live (browser w') = [])
  /\ (vocalAudio (view w') = vocalAudio (view w)
      /\ beatAudio (view w') = beatAudio (view w)
      /\ vocalKey (view w') = vocalKey (view w)
      /\ beatKey (view w') = beatKey (view w)
      /\ vocalBpm (view w') = vocalBpm (view w)
      /\ beatBpm (view w') = beatBpm (view w)
      /\ error (view w') = error (view w))
  /\ (forall f s, vocalAudio (handleVocalAudioChange (Some f) s) = Some f)
  /\ (forall f s, beatAudio (handleBeatAudioChange (Some f) s) = Some f)
  /\ (forall d s,
        processingId (fst (handleSubmit_then d s)) = processing_id d
        /\ offsetBeats (fst (handleSubmit_then d s))
           = offset_or_zero (offset_beats d)
        /\ previewUrl (fst (handleSubmit_then d s))
           = Some ("/api" +++ Js.to_string (preview_url d)))
  /\ (forall b s,
        processedAudio (fst (snd (handleFinalizeMix_then b s)))
        = Some (next_url b)).
Proof.
  intros R S.
  assert (Hw' : urls_ok w')
    by (eapply step_urls_ok; [exact S | now apply reachable_urls_ok]).
  unfold step in S. destruct (mounted w); [cbn [negb] in S | discriminate].
  split_guard S.
  destruct Hw' as [Hl _]. cbn in Hl.
  repeat split. exact Hl.
Qed.

Lemma session_runs : run session boot = Some mixed.
Proof. vm_compute. reflexivity. Qed.

Lemma new_mix_runs : step ClickNewMix mixed = Some remixing.
Proof. vm_compute. reflexivity. Qed.

(** C5 at the end of [session]. *)
Lemma C5_witness :
  processingId (view remixing) = Js.null /\ live (browser remixing) = [].
Proof.
  destruct (C5_new_mix_resets_the_job mixed remixing
              (ex_intro _ session session_runs) new_mix_runs)
    as ((_ & Hid & _ & _ & _ & Hlive) & _).
  split; assumption.
Defined.

(** C5, as worded, fails: after a whole session New Mix leaves both
    selected files in their cells. *)
Lemma C5_files_survive_new_mix :
  reachable mixed
  /\ step ClickNewMix mixed = Some remixing
  /\ vocalAudio (view remixing) = Some vocal
  /\ beatAudio (view remixing) = Some beat
  /\ ~ new_mix_clears_all.
Proof.
  assert (R : reachable mixed) by (exists session; exact session_runs).
  split; [exact R|]. split; [exact new_mix_runs|].
  split; [reflexivity|]. split; [reflexivity|].
  intros H. destruct (H mixed remixing R new_mix_runs) as [Hv _].
  discriminate Hv.
Qed.

Lemma mix_prepare_caught (err : AxiosError) (s : State) :
  caught isProcessing error is_request after_readers (handleSubmit_catch err s).
Proof.
  destruct (handleSubmit_catch_spec err s) as (Hr & Hf & m & Hm & Hne).
  unfold caught. rewrite Hm. repeat split; try assumption.
  exists m. split; [reflexivity | exact Hne].
Qed.

Lemma mix_adjust_caught (err : AxiosError) (s : State) :
  caught isAdjusting error is_request after_readers
    (handleOffsetChange_catch err s).
Proof.
  destruct (handleOffsetChange_catch_spec err s) as (Hr & Hf & m & Hm & Hne).
  unfold caught. rewrite Hm. repeat split; try assumption.
  exists m. split; [reflexivity | exact Hne].
Qed.

Lemma mix_finalize_caught (err : AxiosError) (s : State) :
  caught isMerging error is_request after_readers
    (handleFinalizeMix_catch err s).
Proof.
  destruct (handleFinalizeMix_catch_spec err s) as (Hr & Hf & m & Hm & Hne).
  unfold caught. rewrite Hm. repeat split; try assumption.
  exists m. split; [reflexivity | exact Hne].
Qed.

End MixFacts.

(** ** The two one-shot forms and the drop zone *)

Module BlobFacts.
Import BlobApp.

Lemma blob_submit_caught (err : AxiosError) (s : State) :
  caught isProcessing error is_request after_readers (handleSubmit_catch err s).
Proof.
  unfold caught, handleSubmit_catch, after_readers.
  destruct err as [msg [[ | t | e | [ | | v]]|]]; cbn;
    try destruct (t =? ""); cbn;
    repeat split; eexists; (split; [reflexivity | auto with simul]).
Qed.

(** The 2xx branch that finds JSON in the blob: the message is stored
    when the text parses to a value with properties. *)
Lemma json_reply_message (ct : string) (e : Js.value) (b : Browser) (s : State) :
  includes "application/json" ct = true ->
  let r := snd (handleSubmit_then {| content_type := ct; body := ParsedValue e |} b s) in
  isProcessing (fst r) = false
  /\ error (after_readers r) = Some ("Server error: " +++ Js.to_string e).
Proof.
  intros H. unfold handleSubmit_then. cbn [content_type body]. rewrite H.
  split; reflexivity.
Qed.

(** A fulfilled download leaves one more live URL, and teardown does
    not take it back. *)
Lemma download_url_stays (ct : string) (c : Parsed) (b : Browser) (s : State) :
  includes "application/json" ct = false ->
  let r := handleSubmit_then {| content_type := ct; body := c |} b s in
  processedAudio (fst (snd r)) = Some (next_url b)
  /\ live (unmount (fst r)) = next_url b :: live b.
Proof.
  intros H. unfold handleSubmit_then. cbn [content_type body]. rewrite H.
  split; reflexivity.
Qed.

End BlobFacts.

Module TsFacts.
Import TsApp.

Lemma ts_submit_caught (err : AxiosError) (s : State) :
  caught isProcessing error (fun _ : Effect => true) fst (handleSubmit_catch err s).
Proof.
  unfold caught, handleSubmit_catch. cbn.
  repeat split. eexists. split; [reflexivity | auto with simul].
Qed.

(** C7, at the first form.  With both files chosen and the request of
    a first click still pending, the submit button of the TypeScript
    form is enabled, and a second click sends the request again. *)
Theorem C7_first_form_button_ignores_processing :
  isProcessing busy = true
  /\ submit_enabled busy = true
  /\ snd (handleSubmit busy)
     = [PostProcessAudio "/api/process-audio"
          [("vocal_file", FormFile vocal); ("beat_file", FormFile beat)]].
Proof. repeat split. Qed.

(** The button looks at the two file cells only. *)
Lemma ts_submit_enabled_iff (s : State) :
  submit_enabled s = true <-> (vocalAudio s <> None /\ beatAudio s <> None).
Proof.
  unfold submit_enabled.
  destruct (vocalAudio s), (beatAudio s); cbn; intuition congruence.
Qed.

End TsFacts.

Module UploaderFacts.
Import AudioUploader.

Lemma render_creates (p : Props) (f : File) (b : Browser) :
  file p = Some f -> prefix "audio/" (file_type f) = true ->
  live (render p b) = next_url b :: live b
  /\ next_url (render p b) = S (next_url b).
Proof.
  intros Hf Ha. unfold render. rewrite Hf, Ha. split; reflexivity.
Qed.

(** C8, at the drop zone and at the blob-download form.  The widget
    is drawn twice with an audio file and then torn down: both URLs
    made for its preview are still live.  The blob-download form
    stores the URL of a finished mix and is torn down: that URL is
    still live. *)
Theorem C8_urls_outlive_their_component :
  live (unmount
          (render {| file := Some clip; disabled := false |}
             (render {| file := Some clip; disabled := false |} fresh_browser)))
  = [1; 0]
  /\ live (BlobApp.unmount
             (fst (BlobApp.handleSubmit_then
                     {| BlobApp.content_type := "audio/mpeg";
                        BlobApp.body := ParseError |}
                     fresh_browser BlobApp.initial)))
     = [0].
Proof. split; reflexivity. Qed.

End UploaderFacts.


(** C1.  Whatever a request is rejected with (no response at all, or a
    response whose body is empty, text, a JSON object or a blob), the
    [catch] block of the handler that sent it starts no request, lowers
    the in-progress flag of that handler and leaves a non-empty message
    in the error cell: at once, or when the reader started on a blob has
    loaded.  This holds for the prepare, offset-adjustment and finalize
    requests of the workflow form, for the submit and status requests of
    the job-polling form, and for the submit request of the two
    one-shot forms. *)
Theorem C1_rejections_are_caught (err : AxiosError) :
  (forall s, caught MixApp.isProcessing MixApp.error MixApp.is_request
               MixApp.after_readers (MixApp.handleSubmit_catch err s))
  /\ (forall s, caught MixApp.isAdjusting MixApp.error MixApp.is_request
                  MixApp.after_readers (MixApp.handleOffsetChange_catch err s))
  /\ (forall s, caught MixApp.isMerging MixApp.error MixApp.is_request
                  MixApp.after_readers (MixApp.handleFinalizeMix_catch err s))
  /\ (forall s, caught PollApp.processing PollApp.message_cell
                  PollApp.is_request fst (PollApp.handleSubmit_catch err s))
  /\ (forall s, caught PollApp.processing PollApp.message_cell
                  PollApp.is_request fst (PollApp.pollStatus_catch err s))
  /\ (forall s, caught BlobApp.isProcessing BlobApp.error BlobApp.is_request
                  BlobApp.after_readers (BlobApp.handleSubmit_catch err s))
  /\ (forall s, caught TsApp.isProcessing TsApp.error (fun _ => true) fst
                  (TsApp.handleSubmit_catch err s)).
Proof.
  repeat match goal with
         | |- _ /\ _ => split
         end; intros s.
  - apply MixFacts.mix_prepare_caught.
  - apply MixFacts.mix_adjust_caught.
  - apply MixFacts.mix_finalize_caught.
  - apply PollFacts.poll_submit_caught.
  - apply PollFacts.poll_status_caught.
  - apply BlobFacts.blob_submit_caught.
  - apply TsFacts.ts_submit_caught.
Qed.

(** * Further properties *)

(** ** The job-polling form as a whole *)

Module PollWhole.
Import PollApp.

Lemma boot_phase : phase boot.
Proof. left. repeat split. Qed.

Lemma nth_error_single {A : Type} (i : nat) (x y : A) :
  nth_error [x] i = Some y -> i = 0 /\ y = x.
Proof.
  destruct i as [|[|i]]; cbn; intros H; try discriminate.
  injection H as <-. split; reflexivity.
Qed.

Lemma submit_starts_chain (s : State) (tr : list Effect) :
  processing s = false ->
  submit_enabled s = true ->
  phase (start (handleSubmit s) (mkWorld s [] tr)).
Proof.
  intros Pr En. unfold submit_enabled in En. rewrite Pr in En.
  unfold handleSubmit.
  destruct (vocalFile s) as [v|] eqn:V; [|discriminate].
  destruct (beatFile s) as [b|] eqn:B; [|discriminate].
  right. left. cbn. repeat split.
  eexists. split; [reflexivity|]. left. exists v, b. cbn.
  rewrite V, B. repeat split.
Qed.

Ltac no_task H :=
  match type of H with
  | context [nth_error [] ?i] => destruct i; discriminate H
  end.

Ltac idle_like Pr S :=
  rewrite ?Pr in S; try no_task S;
  try (injection S as <-; cbn; tauto).

Lemma step_phase (e : Event) (w w' : World) :
  step e w = Some w' -> phase w -> phase w'.
Proof.
  intros S P. destruct w as [s ts tr]. unfold phase in P. cbn [view tasks] in P.
  destruct P as [(St & Pr & Er & Ts) | [(St & Pr & Er & e0 & Ts & Ch)
               | [(St & Pr & Er & Ts & Dl) | (St & Pr & Er & Ts)]]];
    subst ts; unfold step in S; cbn [view tasks] in S.
  - destruct e; idle_like Pr S.
    + injection S as <-. left. cbn. auto.
    + injection S as <-. left. cbn. auto.
    + destruct (submit_enabled s) eqn:En; [|discriminate].
      injection S as <-. now apply submit_starts_chain.
  - assert (Off : submit_enabled s = false)
      by (unfold submit_enabled; now rewrite Pr).
    destruct e; rewrite ?Pr, ?Off in S; try discriminate.
    + destruct (nth_error [e0] i) as [[url form | |]|] eqn:N; try discriminate.
      apply nth_error_single in N as [-> <-]. injection S as <-.
      destruct r as [[body|] | err].
      * right. left. cbn. repeat split; try assumption.
        eexists. split; [reflexivity|]. right. left. reflexivity.
      * right. right. right. cbn. tauto.
      * right. right. right. cbn. tauto.
    + destruct (nth_error [e0] i) as [[| url id |]|] eqn:N; try discriminate.
      apply nth_error_single in N as [-> <-]. injection S as <-.
      assert (Hid : id = jobId s).
      { destruct Ch as [(v & b & _ & _ & E) | [E | E]];
          [discriminate E | now injection E | discriminate E]. }
      subst id.
      destruct r as [[body|] | err].
      * unfold pollStatus_then.
        destruct (Js.strict_eq (reported body) "completed").
        { right. right. left. cbn. tauto. }
        destruct (Js.strict_eq (reported body) "processing").
        { right. left. cbn. repeat split; try assumption.
          eexists. split; [reflexivity|]. right. right. reflexivity. }
        right. right. right. cbn. tauto.
      * right. right. right. cbn. tauto.
      * right. right. right. cbn. tauto.
    + destruct (nth_error [e0] i) as [[| | delay id]|] eqn:N; try discriminate.
      apply nth_error_single in N as [-> <-]. injection S as <-.
      destruct Ch as [(v & b & _ & _ & E) | [E | E]];
        [discriminate E | discriminate E | injection E as -> ->].
      right. left. cbn. repeat split; try assumption.
      eexists. split; [reflexivity|]. right. left. reflexivity.
  - destruct e; idle_like Pr S.
    + injection S as <-. right. right. left. cbn. auto.
    + injection S as <-. right. right. left. cbn. auto.
    + destruct (submit_enabled s) eqn:En; [|discriminate].
      injection S as <-. now apply submit_starts_chain.
  - destruct e; idle_like Pr S.
    + injection S as <-. right. right. right. cbn. auto.
    + injection S as <-. right. right. right. cbn. auto.
    + destruct (submit_enabled s) eqn:En; [|discriminate].
      injection S as <-. now apply submit_starts_chain.
Qed.

Lemma run_phase (es : list Event) :
  forall w w', run es w = Some w' -> phase w -> phase w'.
Proof.
  induction es as [|e es IH]; intros w w' H Hw; cbn in H.
  - now injection H as <-.
  - destruct (step e w) as [w1|] eqn:S; [|discriminate].
    eapply IH; [exact H|]. eapply step_phase; eassumption.
Qed.

Lemma reachable_phase (w : World) : reachable w -> phase w.
Proof. intros [es H]. eapply run_phase; [exact H | exact boot_phase]. Qed.

(** X1.  In every world the job-polling form can reach, the number of
    pending effects (the POST, a status GET or the 2000 ms timer) is 1
    while [processing] is up and 0 otherwise, and [processing] is up
    exactly while the status is 'processing'. *)
Theorem poll_one_effect_at_a_time (w : World) :
  reachable w ->
  length (tasks w) = b2n (processing (view w))
  /\ (processing (view w) = true <-> status (view w) = "processing").
Proof.
  intros R. apply reachable_phase in R.
  destruct R as [(St & Pr & _ & Ts) | [(St & Pr & _ & e0 & Ts & _)
               | [(St & Pr & _ & Ts & _) | (St & Pr & _ & Ts)]]];
    rewrite Ts, Pr, St; cbn; repeat split; congruence.
Qed.

Lemma one_poll_runs : run one_poll boot = Some waiting.
Proof. vm_compute. reflexivity. Qed.

Lemma poll_one_effect_witness : length (tasks waiting) = 1.
Proof.
  apply (poll_one_effect_at_a_time waiting (ex_intro _ one_poll one_poll_runs)).
Defined.

(** X2.  What [getStatusDisplay] draws in a reachable world: the
    spinner only while [processing] is up; the download link only with
    the download URL of the job on view; an error text only if it is
    the stored message and one of the three failure messages; nothing
    only before the first submission. *)
Theorem poll_display_is_consistent (w : World) :
  reachable w ->
  match getStatusDisplay (view w) with
  | ShowSpinner => processing (view w) = true /\ submit_enabled (view w) = false
  | ShowDownload href =>
      href = Some (download_url (jobId (view w))) /\ processing (view w) = false
  | ShowError text =>
      text = error (view w) /\ In text failure_messages
      /\ processing (view w) = false
  | ShowNothing => status (view w) = "idle" /\ processing (view w) = false
  end.
Proof.
  intros R. apply reachable_phase in R. unfold getStatusDisplay.
  destruct R as [(St & Pr & Er & Ts) | [(St & Pr & Er & e0 & Ts & _)
               | [(St & Pr & Er & Ts & Dl) | (St & Pr & Er & Ts)]]];
    rewrite St; cbn.
  - split; auto.
  - split; [assumption|]. unfold submit_enabled. now rewrite Pr.
  - split; auto.
  - destruct Er as [E | [E | [E | []]]]; rewrite <- E; cbn; repeat split; auto.
Qed.

Lemma poll_display_witness :
  getStatusDisplay (view waiting) = ShowSpinner
  /\ processing (view waiting) = true.
Proof.
  pose proof (poll_display_is_consistent waiting
                (ex_intro _ one_poll one_poll_runs)) as H.
  cbn in H. destruct H as [H _]. split; [reflexivity | exact H].
Defined.

(** X3.  The message of the missing-file branch of [handleSubmit] is
    in the error cell of no reachable world: the button that would run
    the branch is disabled whenever a file is missing. *)
Theorem poll_missing_file_branch_is_dead (w : World) :
  reachable w ->
  error (view w) <> "Please upload both vocal and beat files".
Proof.
  intros R. apply reachable_phase in R.
  destruct R as [(_ & _ & Er & _) | [(_ & _ & Er & _)
               | [(_ & _ & Er & _) | (_ & _ & Er & _)]]];
    try (rewrite Er; discriminate).
  destruct Er as [E | [E | [E | []]]]; rewrite <- E; discriminate.
Qed.

Lemma poll_missing_file_witness :
  error (view waiting) <> "Please upload both vocal and beat files".
Proof.
  apply (poll_missing_file_branch_is_dead waiting
           (ex_intro _ one_poll one_poll_runs)).
Defined.

(** X4.  While the POST is pending the files it carries are the two
    files on view: the drop zones are disabled during processing, so
    the form shows what is being processed. *)
Theorem poll_pending_post_carries_files_on_view (w : World) (url : string)
    (form : FormData) :
  reachable w ->
  In (PostProcess url form) (tasks w) ->
  url = API_URL +++ "/process"
  /\ exists v b,
       vocalFile (view w) = Some v /\ beatFile (view w) = Some b
       /\ form = [("vocal_file", FormFile v); ("beat_file", FormFile b)].
Proof.
  intros R I. apply reachable_phase in R.
  destruct R as [(_ & _ & _ & Ts) | [(_ & _ & _ & e0 & Ts & Ch)
               | [(_ & _ & _ & Ts & _) | (_ & _ & _ & Ts)]]];
    rewrite Ts in I; try contradiction.
  destruct I as [E0 | []]. subst e0.
  destruct Ch as [(v & b & V & B & E) | [E | E]]; try discriminate E.
  injection E as -> ->. split; [reflexivity|]. exists v, b. auto.
Qed.

Lemma posted_runs : run (firstn 3 one_poll) boot = Some posted.
Proof. vm_compute. reflexivity. Qed.

Lemma poll_pending_post_witness :
  exists v b,
    vocalFile (view posted) = Some v /\ beatFile (view posted) = Some b.
Proof.
  destruct (poll_pending_post_carries_files_on_view posted _ _
              (ex_intro _ _ posted_runs) (or_introl eq_refl))
    as (_ & v & b & V & B & _).
  exists v, b. split; assumption.
Defined.

(** X5.  A reply to a status request that does not say 'processing'
    (another status, no status, a [null] body, a rejection) ends the
    polling: nothing is pending afterwards, [processing] is down and
    the status is 'completed' or 'error'. *)
Theorem poll_other_reply_ends_polling (w w' : World) (i : nat)
    (r : Reply (option StatusBody)) :
  reachable w ->
  step (StatusReply i r) w = Some w' ->
  ends_polling r = true ->
  tasks w' = [] /\ processing (view w') = false
  /\ (status (view w') = "completed" \/ status (view w') = "error").
Proof.
  intros R S E.
  apply reachable_phase in R.
  unfold step in S.
  destruct R as [(_ & _ & _ & Ts) | [(_ & _ & _ & e0 & Ts & _)
               | [(_ & _ & _ & Ts & _) | (_ & _ & _ & Ts)]]];
    rewrite Ts in S; try (destruct i; discriminate S).
  destruct (nth_error [e0] i) as [[| url id |]|] eqn:N; try discriminate.
  apply nth_error_single in N as [-> <-]. injection S as <-.
  unfold settle. cbn [tasks view]. rewrite Ts. cbn [remove_nth app].
  destruct r as [[body|] | err]; cbn in E |- *.
  - unfold pollStatus_then.
    destruct (Js.strict_eq (reported body) "completed"); [cbn; auto|].
    destruct (Js.strict_eq (reported body) "processing"); [discriminate|].
    cbn. auto.
  - auto.
  - auto.
Qed.

Lemma repolling_runs : run (one_poll ++ [TimerFires 0]) boot = Some repolling.
Proof. vm_compute. reflexivity. Qed.

Lemma poll_other_reply_witness :
  tasks (settle 0 (pollStatus_catch network_down (view repolling)) repolling) = [].
Proof.
  apply (poll_other_reply_ends_polling repolling _ 0 (Rejected network_down)
           (ex_intro _ _ repolling_runs) eq_refl eq_refl).
Defined.

End PollWhole.

(** ** The workflow form as a whole *)

Module MixWhole.
Import MixApp MixFacts.

Lemma boot_coherent : coherent (view boot) = true.
Proof. reflexivity. Qed.

(** A pending request keeps its flag up. *)
Lemma pending_flag (w : World) (i : nat) (x : Effect) :
  flags_count w -> nth_error (tasks w) i = Some x ->
  (is_prepare x = true -> isProcessing (view w) = true)
  /\ (is_adjust x = true -> isAdjusting (view w) = true)
  /\ (is_finalize x = true -> isMerging (view w) = true).
Proof.
  intros [Hp Ha Hf] N. unfold count in *.
  pose proof (filter_remove_nth is_prepare i (tasks w) x N) as Rp.
  pose proof (filter_remove_nth is_adjust i (tasks w) x N) as Ra.
  pose proof (filter_remove_nth is_finalize i (tasks w) x N) as Rf.
  repeat split; intros E; rewrite E in *; cbn in *.
  - destruct (isProcessing (view w)); [reflexivity | cbn in *; lia].
  - destruct (isAdjusting (view w)); [reflexivity | cbn in *; lia].
  - destruct (isMerging (view w)); [reflexivity | cbn in *; lia].
Qed.

Ltac simp_cells :=
  cbn [fst snd negb Js.has andb orb implb
       vocalAudio beatAudio isProcessing processedAudio isPreviewMode
       isMerging isAdjusting previewUrl processingId offsetBeats
       setVocalAudio setBeatAudio setVocalKey setBeatKey setVocalBpm setBeatBpm
       setIsProcessing setProcessedAudio setError setProcessingId
       setOffsetBeats setPreviewUrl setIsAdjusting setIsMerging
       setIsPreviewMode].

Ltac split_atom :=
  match goal with
  | |- context [Js.truthy ?v] => is_var v; destruct (Js.truthy v)
  | |- context [Js.truthy_opt ?v] => is_var v; destruct (Js.truthy_opt v)
  | |- context [Js.has ?c] => is_var c; destruct c
  | |- context [match ?c with Some _ => _ | None => _ end] =>
      is_var c; destruct c
  | |- context [Qeq_bool ?a ?b] => destruct (Qeq_bool a b)
  | |- context [if ?x then _ else _] => is_var x; destruct x
  end.

Ltac crush_view s :=
  unfold coherent, handleVocalAudioChange, handleBeatAudioChange, handleSubmit,
    handleQuarterBeatAdjustment, resetOffset, handleOffsetChange,
    handleFinalizeMix, newMix, handleSubmit_then, handleOffsetChange_then,
    handleApiError_onload,
    submit_enabled, nudge_enabled, reset_enabled, finalize_enabled,
    form_shown, preview_shown, final_shown;
  destruct s; simp_cells;
  repeat (split_atom; simp_cells);
  repeat match goal with
         | x : bool |- _ => destruct x
         end;
  simp_cells; try reflexivity;
  intros; try discriminate; try reflexivity.

Lemma step_coherent (e : Event) (w w' : World) :
  step e w = Some w' -> flags_count w ->
  coherent (view w) = true -> coherent (view w') = true.
Proof.
  intros S F C. unfold step in S.
  destruct (mounted w); [cbn [negb] in S | discriminate].
  destruct e; try (split_guard S; cbn [view act render fst]).
  all: try (destruct files0).
  1-14: revert C;
        match goal with
        | G : _ = true |- _ => revert G
        end; clear; crush_view (view w).
  - destruct (nth_error (tasks w) i) as [[]|] eqn:N; try discriminate.
    injection S as <-.
    destruct (pending_flag w i _ F N) as (P & _ & _). specialize (P eq_refl).
    cbn [view settle render fst].
    destruct r as [d | err]; [|catch_cases err (view w)];
      revert C P; clear; crush_view (view w).
  - destruct (nth_error (tasks w) i) as [[]|] eqn:N; try discriminate.
    injection S as <-.
    cbn [view settle render fst].
    destruct r as [d | err]; [|catch_cases err (view w)];
      revert C; clear; crush_view (view w).
  - destruct (nth_error (tasks w) i) as [[]|] eqn:N; try discriminate.
    injection S as <-.
    destruct (pending_flag w i _ F N) as (_ & _ & P). specialize (P eq_refl).
    destruct r as [d | err].
    + unfold handleFinalizeMix_then, createObjectURL. cbn [view render fst snd].
      revert C P; clear; crush_view (view w).
    + cbn [view settle render fst]. catch_cases err (view w);
        revert C P; clear; crush_view (view w).
  - destruct (nth_error (tasks w) i) as [[]|] eqn:N; try discriminate.
    injection S as <-. cbn [view settle render fst].
    destruct content; revert C; clear; crush_view (view w).
  - injection S as <-. exact C.
Qed.

Lemma run_coherent (es : list Event) :
  forall w w', run es w = Some w' ->
               flags_count w -> coherent (view w) = true ->
               coherent (view w') = true.
Proof.
  induction es as [|e es IH]; intros w w' H F C; cbn in H.
  - now injection H as <-.
  - destruct (step e w) as [w1|] eqn:S; [|discriminate].
    eapply IH; [exact H | |].
    + eapply step_flags_count; eassumption.
    + eapply step_coherent; eassumption.
Qed.

Lemma reachable_coherent (w : World) : reachable w -> coherent (view w) = true.
Proof.
  intros [es H].
  eapply run_coherent; [exact H | exact boot_flags_count | exact boot_coherent].
Qed.

(** X6.  Exactly one of the three panels (upload form, preview, final mix)
    is drawn in every reachable world. *)
Theorem mix_exactly_one_panel (w : World) :
  reachable w -> panels (view w) = 1.
Proof.
  intros R. apply reachable_coherent in R. revert R. clear.
  unfold panels. crush_view (view w).
Qed.

Lemma mix_exactly_one_panel_witness : panels (view racing) = 1.
Proof.
  apply (mix_exactly_one_panel racing (ex_intro _ race race_runs)).
Defined.

(** X7.  At most two requests are pending in a reachable world, and a
    prepare request is never pending together with a finalize
    request. *)
Theorem mix_at_most_two_requests (w : World) :
  reachable w ->
  in_flight w <= 2
  /\ (count is_prepare w = 0 \/ count is_finalize w = 0).
Proof.
  intros R.
  pose proof (reachable_coherent w R) as C.
  destruct (reachable_flags_count w R) as [Hp Ha Hf].
  rewrite in_flight_by_kind, Hp, Ha, Hf.
  revert C. clear. unfold coherent.
  destruct (isProcessing (view w)), (isMerging (view w)),
    (isAdjusting (view w)), (isPreviewMode (view w));
    cbn; rewrite ?andb_false_r; intros C; try discriminate; split; auto.
Qed.

Lemma mix_at_most_two_requests_witness : in_flight racing <= 2.
Proof.
  apply (mix_at_most_two_requests racing (ex_intro _ race race_runs)).
Defined.

(** *** The prepare request *)


(** X8.  With both files chosen, [handleSubmit] sends one POST to
    [/api/prepare-audio] whose form carries the two files, and each of
    the four optional fields exactly when its input is not empty, with
    the text as typed: no list of keys and no range of tempi is
    enforced. *)
Theorem mix_prepare_form_fields (s : State) (v b : File) :
  vocalAudio s = Some v -> beatAudio s = Some b ->
  exists form,
    snd (handleSubmit s) = [PostPrepare "/api/prepare-audio" form]
    /\ form_get "vocal_file" form = Some (FormFile v)
    /\ form_get "beat_file" form = Some (FormFile b)
    /\ form_get "vocal_key" form
       = (if vocalKey s =? "" then None else Some (FormText (vocalKey s)))
    /\ form_get "beat_key" form
       = (if beatKey s =? "" then None else Some (FormText (beatKey s)))
    /\ form_get "vocal_bpm" form
       = (if vocalBpm s =? "" then None else Some (FormText (vocalBpm s)))
    /\ form_get "beat_bpm" form
       = (if beatBpm s =? "" then None else Some (FormText (beatBpm s)))
    /\ 2 <= length form <= 6.
Proof.
  intros V B. unfold handleSubmit. rewrite V, B. cbn [snd].
  eexists. split; [reflexivity|]. unfold append_if.
  destruct (vocalKey s =? ""), (beatKey s =? ""), (vocalBpm s =? ""),
    (beatBpm s =? ""); cbn; repeat split; lia.
Qed.

Lemma mix_prepare_form_witness :
  exists form,
    snd (handleSubmit (initial |> setVocalAudio (Some vocal)
                               |> setBeatAudio (Some beat)
                               |> setVocalBpm "9000"))
    = [PostPrepare "/api/prepare-audio" form]
    /\ form_get "vocal_bpm" form = Some (FormText "9000").
Proof.
  destruct (mix_prepare_form_fields
              (initial |> setVocalAudio (Some vocal) |> setBeatAudio (Some beat)
                       |> setVocalBpm "9000") vocal beat eq_refl eq_refl)
    as (form & E & _ & _ & _ & _ & Hb & _).
  exists form. split; [exact E | exact Hb].
Defined.



(** *** The message cell *)


Lemma stranded_runs : run failed_nudge boot = Some stranded.
Proof. vm_compute. reflexivity. Qed.



(** *** Repeated nudges *)




(** *** The time stamp of the preview URL *)

Lemma append_cancel (p a b : string) : p +++ a = p +++ b -> a = b.
Proof.
  induction p as [|c p IH]; cbn; intros H; [exact H|].
  injection H as H. now apply IH.
Qed.

Lemma show_time_inj (m n : N) : show_time m = show_time n -> m = n.
Proof.
  unfold show_time. intros H.
  apply DecimalN.Unsigned.to_uint_inj.
  assert (U : forall k, NilZero.uint_of_string (NilZero.string_of_uint (N.to_uint k))
                        = Some (N.to_uint k)).
  { intros k. apply NilZero.usu.
    destruct k as [|q]; [discriminate|]. cbn.
    apply DecimalPos.Unsigned.to_uint_nonnil. }
  pose proof (U m) as Um. rewrite H, U in Um. now injection Um.
Qed.

(** X12.  Two fulfilled adjustments whose replies arrive at different
    milliseconds store different preview URLs, also when the server
    names the same file both times: the [<audio>] element gets a new
    [src]. *)
Theorem mix_time_stamp_changes_the_url (d : AdjustBody) (m n : N)
    (s1 s2 : State) :
  m <> n ->
  previewUrl (fst (handleOffsetChange_then d m s1))
  <> previewUrl (fst (handleOffsetChange_then d n s2)).
Proof.
  intros Ne E. apply Ne. cbn in E. injection E as E.
  apply show_time_inj.
  apply (append_cancel "?t=").
  apply (append_cancel (Js.to_string (adjusted_preview_url d))). exact E.
Qed.

Lemma mix_time_stamp_witness :
  previewUrl (fst (handleOffsetChange_then
                     {| adjusted_preview_url := Js.str "/preview/p1" |} 1000
                     (previewing "p1")))
  <> previewUrl (fst (handleOffsetChange_then
                        {| adjusted_preview_url := Js.str "/preview/p1" |} 1001
                        (previewing "p1"))).
Proof.
  apply mix_time_stamp_changes_the_url. discriminate.
Defined.

(** *** The reply to the prepare request *)


(** *** A reply that arrives late *)

(** X14.  The reply to an adjustment of one job is applied to whatever job
    is on view when it arrives.  In [overtaken] it arrives after the
    user finalized, started a new mix and prepared a second job: the
    preview panel of the second job then plays the file of the first. *)
Theorem mix_late_reply_overwrites_preview (old new : string) (now : N) :
  run (overtaken old new now) boot
  = Some (mkWorld (overtaken_view old now) (mkBrowser 1 []) [] true)
  /\ processingId (overtaken_view old now) = Js.str "job-2"
  /\ preview_shown (overtaken_view old now) = true.
Proof.
  split; [vm_compute; reflexivity | split; reflexivity].
Qed.
(** *** Teardown *)



End MixWhole.

(** ** Object URLs that pile up *)

Module LeakFacts.

(** X16.  Every evaluation of the body of [AudioUploader] that draws the
    preview player makes one more object URL, and none of them is ever
    revoked: after [n] evaluations and the teardown, [n] more URLs are
    live than before.  Without an audio file none is made. *)
Theorem uploader_urls_pile_up (n : nat) (p : AudioUploader.Props) (b : Browser) :
  length (live (AudioUploader.unmount (AudioUploader.renders n p b)))
  = length (live b) + (if AudioUploader.previews p then n else 0).
Proof.
  unfold AudioUploader.unmount. revert b.
  induction n as [|n IH]; intros b; cbn [AudioUploader.renders].
  - destruct (AudioUploader.previews p); lia.
  - rewrite IH. unfold AudioUploader.render, AudioUploader.previews.
    destruct (AudioUploader.file p) as [f|]; [|lia].
    destruct (prefix "audio/" (file_type f)); cbn; lia.
Qed.




(** X18.  The same for the first form, which takes every fulfilled reply for
    audio. *)
Theorem ts_urls_pile_up (n : nat) (b : Browser) (s : TsApp.State) :
  TsApp.ready s = true ->
  length (live (fst (TsApp.rounds n (b, s)))) = length (live b) + n.
Proof.
  revert b s. induction n as [|n IH]; intros b s Rd; cbn [TsApp.rounds].
  - cbn. lia.
  - unfold TsApp.ready in Rd.
    destruct (TsApp.vocalAudio s) as [v|] eqn:V; [|discriminate].
    destruct (TsApp.beatAudio s) as [t|] eqn:T; [|discriminate].
    unfold TsApp.round, TsApp.handleSubmit, TsApp.handleSubmit_then.
    rewrite V, T. cbn [snd fst createObjectURL].
    rewrite IH.
    + cbn. lia.
    + unfold TsApp.ready. cbn. now rewrite V, T.
Qed.

Lemma ts_urls_witness :
  length (live (fst (TsApp.rounds 2 (fresh_browser, TsApp.both)))) = 2.
Proof.
  apply (ts_urls_pile_up 2 fresh_browser TsApp.both eq_refl).
Defined.

(** X19.  A 2xx reply of the blob-download form whose content type is JSON
    but whose text is not JSON, or is the JSON value [null], fails in
    silence: after the click and the reply the spinner is gone, no
    message is stored and no mix is offered. *)
Theorem blob_unreadable_json_reply_is_silent (ct : string) (c : Parsed)
    (b : Browser) (s : BlobApp.State) (v t : File) :
  BlobApp.vocalAudio s = Some v -> BlobApp.beatAudio s = Some t ->
  includes "application/json" ct = true ->
  c = ParseError \/ c = ParsedNull ->
  let s' := snd (BlobApp.round {| BlobApp.content_type := ct;
                                  BlobApp.body := c |} (b, s)) in
  BlobApp.isProcessing s' = false
  /\ BlobApp.error s' = None
  /\ BlobApp.processedAudio s' = None
  /\ fst (BlobApp.round {| BlobApp.content_type := ct;
                           BlobApp.body := c |} (b, s)) = b.
Proof.
  intros V T J C. unfold BlobApp.round, BlobApp.handleSubmit,
    BlobApp.handleSubmit_then, BlobApp.after_readers.
  rewrite V, T. cbn [fst snd BlobApp.content_type BlobApp.body]. rewrite J.
  destruct C as [-> | ->]; cbn; repeat split.
Qed.

Lemma blob_unreadable_json_witness :
  BlobApp.error
    (snd (BlobApp.round {| BlobApp.content_type := "application/json";
                          BlobApp.body := ParsedNull |}
            (fresh_browser, BlobApp.both)))
  = None.
Proof.
  apply (blob_unreadable_json_reply_is_silent "application/json" ParsedNull
           fresh_browser BlobApp.both TsApp.vocal TsApp.beat eq_refl eq_refl eq_refl
           (or_intror eq_refl)).
Defined.

End LeakFacts.

(** ** The greeting page *)

Module HelloFacts.
Import HelloApp.

(** X20.  The page shows the greeting only after a fulfilled reply with a
    non-empty [message]; after a rejection, a [null] body, a missing
    or an empty [message] it goes on showing "Loading...", and in no
    case is the request sent again. *)
Theorem hello_loading_unless_greeted (r : Reply (option Js.value)) :
  snd (settle r initial) = []
  /\ body_text (fst (settle r initial))
     = match r with
       | Fulfilled (Some (Js.str m)) => if m =? "" then "Loading..." else m
       | _ => "Loading..."
       end.
Proof.
  destruct r as [[[| | m]|] | err]; cbn; split; try reflexivity.
  unfold body_text, Js.or_else. cbn. destruct (m =? ""); reflexivity.
Qed.

End HelloFacts.
